(** * Jobly: the partial-update SQL builder, the boolean parser and the
      Company / Job data-access modules, embedded and verified.

    Sources embedded here:
    - [helpers/sql.js]   ([sqlForPartialUpdate])
    - [helpers/utils.js] ([parseBool])
    - [models/job.js]    ([Job.create], [Job.findAll], [Job.update])
    - [models/company.js] ([Company.create], [Company.findAll], [Company.update])

    JavaScript objects whose key order matters (the payload of a partial
    update) are property lists in the order [Object.keys] enumerates them;
    the alias map, which is only ever read by key, is a [gmap].  The
    database driver is an external collaborator: it is a parameter of the
    data-access modules, a function from a statement text, its bound
    arguments and the store's state to an outcome and a new state. *)

From Stdlib Require Import ZArith Ascii String List Sorted.
From stdpp Require Import base decidable option list strings gmap pretty.

Local Open Scope string_scope.

(** ** JavaScript values *)

Module Js.

(** The values the embedded functions receive.  Numbers are the
    integer-valued ones: [JNum n] is the Number that the numeral [n]
    denotes, which is [n] itself whenever a double holds [n] exactly.  An
    object that is not a plain data record (array, function, prototype
    object) is kept as a reference together with the string a template
    literal turns it into. *)
Inductive JsVal : Type :=
  | JUndefined
  | JNull
  | JBool (b : bool)
  | JNum (n : Z)
  | JStr (s : string)
  | JObj (ref : positive) (str : string).

#[global] Instance JsVal_eq_dec : EqDecision JsVal.
Proof. solve_decision. Defined.

(** [ToBoolean]: what [||], [!] and [if] test. *)
Definition to_boolean (v : JsVal) : bool :=
  match v with
  | JUndefined | JNull => false
  | JBool b => b
  | JNum n => negb (Z.eqb n 0)
  | JStr s => negb (String.eqb s "")
  | JObj _ _ => true
  end.

(** *** Printing a Number

    [Number::toString] in radix 10, for integer-valued Numbers: the
    shortest decimal that reads back as the same double, written in plain
    digits when it has at most 21 of them and in exponent form beyond. *)

(** The Number nearest to the non-negative integer [n]: [n] itself up to
    53 bits, else [n] rounded to 53 significant bits, ties to even; [None]
    when the result is out of range ([Infinity]). *)
Definition nearest_double (n : Z) : option Z :=
  let bits := (Z.log2 n + 1)%Z in
  if (bits <=? 53)%Z then Some n
  else
    let shift := (bits - 53)%Z in
    let q := Z.shiftr n shift in
    let r := (n - Z.shiftl q shift)%Z in
    let half := Z.shiftl 1 (shift - 1) in
    let q' :=
      if (half <? r)%Z || ((r =? half)%Z && Z.odd q) then (q + 1)%Z else q in
    let x := Z.shiftl q' shift in
    if (2 ^ 1024 <=? x)%Z then None else Some x.

Definition rounds_to (candidate x : Z) : bool :=
  match nearest_double candidate with
  | Some y => (y =? x)%Z
  | None => false
  end.

(** How many decimal digits [x] has. *)
Definition decimal_length (x : Z) : Z := Z.of_nat (String.length (pretty x)).

(** The decimal with the fewest significant digits, [k] or more, that
    still reads back as the Number [x] (of [len] digits); of two such
    decimals the nearer one, and the even one at equal distance. *)
Fixpoint shortest_decimal (fuel : nat) (k : Z) (x len : Z) : Z :=
  match fuel with
  | O => x
  | S fuel' =>
      if (len <=? k)%Z then x
      else
        let unit := (10 ^ (len - k))%Z in
        let below := (x / unit * unit)%Z in
        let above := (below + unit)%Z in
        match rounds_to below x, rounds_to above x with
        | true, true =>
            if (x - below <? above - x)%Z then below
            else if (above - x <? x - below)%Z then above
            else if Z.even (below / unit) then below else above
        | true, false => below
        | false, true => above
        | false, false => shortest_decimal fuel' (k + 1)%Z x len
        end
  end.

Fixpoint strip_zeros (fuel : nat) (s : Z) : Z :=
  match fuel with
  | O => s
  | S fuel' => if (s mod 10 =? 0)%Z then strip_zeros fuel' (s / 10)%Z else s
  end.

(** [Number::toString] for a positive Number [x]: plain digits up to 21
    of them, exponent form beyond. *)
Definition positive_Number_to_string (x : Z) : string :=
  let decimal := shortest_decimal 17 1 x (decimal_length x) in
  let n := decimal_length decimal in
  if (n <=? 21)%Z then pretty decimal
  else
    match pretty (strip_zeros (Z.to_nat n) decimal) with
    | String d EmptyString => String d ("e+" +:+ pretty (n - 1)%Z)
    | String d more => String d ("." +:+ more +:+ "e+" +:+ pretty (n - 1)%Z)
    | EmptyString => EmptyString
    end.

(** What a template literal prints for the Number written [n]. *)
Definition Number_to_string (n : Z) : string :=
  if (n =? 0)%Z then "0"
  else
    (if (n <? 0)%Z then "-" else "")
    +:+ match nearest_double (Z.abs n) with
        | Some x => positive_Number_to_string x
        | None => "Infinity"
        end.

(** [ToString]: what a template literal interpolates. *)
Definition to_string (v : JsVal) : string :=
  match v with
  | JUndefined => "undefined"
  | JNull => "null"
  | JBool true => "true"
  | JBool false => "false"
  | JNum n => Number_to_string n
  | JStr s => s
  | JObj _ s => s
  end.

(** Two numerals denote the same Number when they have the same sign and
    round to the same double (or both overflow). *)
Definition same_Number (x y : Z) : bool :=
  (Z.sgn x =? Z.sgn y)%Z
  && bool_decide (nearest_double (Z.abs x) = nearest_double (Z.abs y)).

(** [a === b]. *)
Definition strict_equals (a b : JsVal) : bool :=
  match a, b with
  | JUndefined, JUndefined => true
  | JNull, JNull => true
  | JBool x, JBool y => Bool.eqb x y
  | JNum x, JNum y => same_Number x y
  | JStr x, JStr y => String.eqb x y
  | JObj r _, JObj r' _ => Pos.eqb r r'
  | _, _ => false
  end.

(** [a !== b]. *)
Definition strict_not_equals (a b : JsVal) : bool := negb (strict_equals a b).

(** [a || b]. *)
Definition or_else (a b : JsVal) : JsVal := if to_boolean a then a else b.

(** An object as [Object.keys] / [Object.values] see it: its own
    enumerable properties, in enumeration order. *)
Abbreviation JsObject := (list (string * JsVal)).

Definition Object_keys (o : JsObject) : list string := map fst o.
Definition Object_values (o : JsObject) : list JsVal := map snd o.

(** The double-quote character, and a line break. *)
Definition dq : string := String (ascii_of_nat 34) EmptyString.
Definition nl : string := String (ascii_of_nat 10) EmptyString.

(** The source text a built-in function prints as. *)
Definition native_function (name : string) : string :=
  "function " +:+ name +:+ "() { [native code] }".

(** The methods every object literal inherits from [Object.prototype]. *)
Definition Object_prototype_methods : list string :=
  [ "__defineGetter__"; "__defineSetter__"; "hasOwnProperty";
    "__lookupGetter__"; "__lookupSetter__"; "isPrototypeOf";
    "propertyIsEnumerable"; "toString"; "valueOf"; "toLocaleString" ].

(** A property read that reaches [Object.prototype]. *)
Definition Object_prototype_get (k : string) : JsVal :=
  if decide (k = "constructor") then JObj 1 (native_function "Object")
  else if decide (k = "__proto__") then JObj 2 "[object Object]"
  else if decide (k ∈ Object_prototype_methods) then JObj 3 (native_function k)
  else JUndefined.

(** [o[k]] for an object literal [o] with own properties [own]: the own
    property when there is one, else whatever [Object.prototype] has. *)
Definition get (own : gmap string JsVal) (k : string) : JsVal :=
  match own !! k with
  | Some v => v
  | None => Object_prototype_get k
  end.

(** The errors the embedded code raises or lets through. *)
Inductive Exn : Type :=
  | BadRequestError (message : string)
  | NotFoundError (message : string)
  | TypeError (reading : string)  (* a property read off [undefined] *)
  | DatabaseError (message : string).

Definition is_BadRequestError (e : Exn) : bool :=
  match e with BadRequestError _ => true | _ => false end.

(** A computation that returns or throws. *)
Definition Result (A : Type) : Type := Exn + A.

Definition throw {A} (e : Exn) : Result A := inl e.
Definition ok {A} (a : A) : Result A := inr a.
Definition bind {A B} (m : Result A) (k : A → Result B) : Result B :=
  match m with
  | inl e => inl e
  | inr a => k a
  end.

(** [xs.map((x, idx) => f(x, idx))] for a callback that may throw: the
    callback runs left to right and the first throw ends the call. *)
Fixpoint array_map_from {A B} (idx : nat) (f : A → nat → Result B)
    (xs : list A) : Result (list B) :=
  match xs with
  | [] => ok []
  | x :: rest =>
      bind (f x idx) (λ y,
      bind (array_map_from (S idx) f rest) (λ ys, ok (y :: ys)))
  end.

Definition array_map {A B} (f : A → nat → Result B) (xs : list A)
    : Result (list B) :=
  array_map_from 0 f xs.

(** [xs.join(sep)] on an array of strings. *)
Definition join (sep : string) (xs : list string) : string :=
  String.concat sep xs.

End Js.

Import Js.

(** ** helpers/sql.js *)

Record PartialUpdate : Type := mkPartialUpdate {
  setCols : string;
  values : list JsVal
}.

(** [jsToSql[colName]]: [jsToSql] is [None] when the caller passed no
    second argument, and reading a property off [undefined] throws. *)
Definition jsToSql_get (jsToSql : option (gmap string JsVal))
    (colName : string) : Result JsVal :=
  match jsToSql with
  | None => throw (TypeError colName)
  | Some own => ok (Js.get own colName)
  end.

Definition sqlForPartialUpdate (dataToUpdate : JsObject)
    (jsToSql : option (gmap string JsVal)) : Result PartialUpdate :=
  let keys := Object_keys dataToUpdate in
  if Nat.eqb (length keys) 0 then throw (BadRequestError "No data")
  else
    bind (array_map (λ colName idx,
            bind (jsToSql_get jsToSql colName) (λ alias,
            ok (dq +:+ to_string (or_else alias (JStr colName)) +:+ dq
                +:+ "=$" +:+ pretty (idx + 1)%nat)))
            keys) (λ cols,
    ok {| setCols := join ", " cols;
          values := Object_values dataToUpdate |}).

(** ** helpers/utils.js *)

Definition parseBool (value : JsVal) : JsVal :=
  if strict_equals value (JStr "true") || strict_equals value (JStr "1")
  then JBool true
  else if strict_equals value (JStr "false") || strict_equals value (JStr "0")
  then JBool false
  else JNull.

(** ** The store

    [db.query(text, args)] of the driver module: it resolves to a result
    whose [rows] the callers read, or rejects.  The driver and the state
    of the database behind it are parameters of every data-access
    function. *)

Module Store.

(** A row is the object the driver builds from the selected columns. *)
Abbreviation Row := JsObject.

Inductive QueryOutcome : Type :=
  | QueryRows (rows : list Row)
  | QueryFail (message : string).

Definition Driver (Db : Type) : Type :=
  string → list JsVal → Db → QueryOutcome * Db.

(** An [async] function body: it runs against the store, and returns or
    throws. *)
Definition Async (Db A : Type) : Type := Db → Result A * Db.

Definition ret {Db A} (a : A) : Async Db A := λ st, (inr a, st).

Definition raise {Db A} (e : Exn) : Async Db A := λ st, (inl e, st).

Definition and_then {Db A B} (m : Async Db A) (k : A → Async Db B)
    : Async Db B :=
  λ st, match m st with
        | (inl e, st') => (inl e, st')
        | (inr a, st') => k a st'
        end.

(** A synchronous call inside an [async] body. *)
Definition lift {Db A} (r : Result A) : Async Db A := λ st, (r, st).

(** [await db.query(text, args)], already projected to [.rows]. *)
Definition query {Db} (db : Driver Db) (text : string) (args : list JsVal)
    : Async Db (list Row) :=
  λ st, match db text args st with
        | (QueryRows rows, st') => (inr rows, st')
        | (QueryFail message, st') => (inl (DatabaseError message), st')
        end.

End Store.

Notation "'let!' x ':=' m 'in' k" :=
  (Store.and_then m (λ x, k))
  (at level 10, x name, m at level 100, k at level 200,
   format "'[v' 'let!'  x  ':='  m  'in' '/' k ']'").

(** [n] spaces of indentation inside a statement text. *)
Definition sp (n : nat) : string := String.concat "" (replicate n " ").

(** The lines of a template literal that spans several source lines. *)
Definition lines (ls : list string) : string := Js.join nl ls.

(** ** The query under assembly in [findAll] *)

Record QueryParts : Type := mkQueryParts {
  whereExpressions : list string;
  queryValues : list JsVal
}.

(** [queryValues.push(v)] *)
Definition push_queryValues (v : JsVal) (st : QueryParts) : QueryParts :=
  {| whereExpressions := whereExpressions st;
     queryValues := queryValues st ++ [v] |}.

(** [whereExpressions.push(e)] *)
Definition push_whereExpressions (e : string) (st : QueryParts) : QueryParts :=
  {| whereExpressions := whereExpressions st ++ [e];
     queryValues := queryValues st |}.

(** The [filters = {}] default and the destructuring read of one key. *)
Definition filters_or_default (filters : option (gmap string JsVal))
    : gmap string JsVal :=
  match filters with
  | Some f => f
  | None => ∅
  end.

(** The tail every [findAll] puts behind its base query. *)
Definition finish_query (base : string) (st : QueryParts) (order : string)
    : string :=
  let query := base in
  let query :=
    if Nat.ltb 0 (length (whereExpressions st))
    then query +:+ " WHERE " +:+ Js.join " AND " (whereExpressions st)
    else query in
  query +:+ order.

(** ** models/job.js *)

Module Job.

Definition duplicateCheck_sql : string :=
  lines [ "SELECT title, company_handle";
          sp 11 +:+ "FROM jobs";
          sp 11 +:+ "WHERE title = $1 AND company_handle = $2" ].

Definition insert_sql : string :=
  lines [ "INSERT INTO jobs";
          sp 11 +:+ "(title, salary, equity, company_handle)";
          sp 11 +:+ "VALUES ($1, $2, $3, $4)";
          sp 11 +:+ "RETURNING id, title, salary, equity, company_handle"
            +:+ dq ].

Definition base_query : string :=
  lines [ "SELECT id,";
          sp 20 +:+ "title,";
          sp 20 +:+ "salary,";
          sp 20 +:+ "equity,";
          sp 20 +:+ "company_handle";
          sp 17 +:+ "FROM jobs" ].

Definition update_sql (setCols idVarIdx : string) : string :=
  lines [ "UPDATE jobs ";
          sp 22 +:+ "SET " +:+ setCols +:+ " ";
          sp 22 +:+ "WHERE id = " +:+ idVarIdx +:+ " ";
          sp 22 +:+ "RETURNING id, ";
          sp 32 +:+ "title, ";
          sp 32 +:+ "salary, ";
          sp 32 +:+ "equity, ";
          sp 32 +:+ "company_handle" ].

(** The three [if] blocks of [findAll], in source order. *)
Definition add_minSalary (minSalary : JsVal) (st : QueryParts) : QueryParts :=
  if strict_not_equals minSalary JUndefined then
    let st := push_queryValues minSalary st in
    push_whereExpressions
      ("salary >= $" +:+ pretty (length (queryValues st))) st
  else st.

Definition add_hasEquity (hasEquity : JsVal) (st : QueryParts) : QueryParts :=
  if strict_not_equals hasEquity JUndefined
     && strict_not_equals hasEquity (JBool false) then
    push_whereExpressions "equity > 0" st
  else st.

Definition add_titleLike (titleLike : JsVal) (st : QueryParts) : QueryParts :=
  if strict_not_equals titleLike JUndefined then
    let st := push_queryValues
                (JStr ("%" +:+ to_string titleLike +:+ "%")) st in
    push_whereExpressions
      ("title ILIKE $" +:+ pretty (length (queryValues st))) st
  else st.

Definition findAll_parts (filters : option (gmap string JsVal)) : QueryParts :=
  let filters := filters_or_default filters in
  let st := {| whereExpressions := []; queryValues := [] |} in
  let minSalary := Js.get filters "minSalary" in
  let hasEquity := Js.get filters "hasEquity" in
  let titleLike := Js.get filters "titleLike" in
  let st := add_minSalary minSalary st in
  let st := add_hasEquity hasEquity st in
  let st := add_titleLike titleLike st in
  st.

(** The statement text and the arguments [findAll] hands to the driver. *)
Definition findAll_query (filters : option (gmap string JsVal))
    : string * list JsVal :=
  let st := findAll_parts filters in
  (finish_query base_query st " ORDER BY title", queryValues st).

Section WithDriver.
Context {Db : Type} (db : Store.Driver Db).

Definition create (data : gmap string JsVal)
      : Store.Async Db (option Store.Row) :=
    let title := Js.get data "title" in
    let salary := Js.get data "salary" in
    let equity := Js.get data "equity" in
    let company_handle := Js.get data "company_handle" in
    let! duplicateCheck :=
      Store.query db duplicateCheck_sql [title; company_handle] in
    match head duplicateCheck with
    | Some _ =>
        Store.raise (BadRequestError
          ("Duplicate job: " +:+ to_string title +:+ " at company "
             +:+ to_string company_handle))
    | None =>
        let! result :=
          Store.query db insert_sql [title; salary; equity; company_handle] in
        let job := head result in
        Store.ret job
    end.

Definition findAll (filters : option (gmap string JsVal))
      : Store.Async Db (list Store.Row) :=
    let '(query, queryValues) := findAll_query filters in
    let! jobsRes := Store.query db query queryValues in
    Store.ret jobsRes.

Definition update (id : JsVal) (data : JsObject) : Store.Async Db Store.Row :=
    let! built := Store.lift (sqlForPartialUpdate data None) in
    let idVarIdx := "$" +:+ pretty (length (values built) + 1)%nat in
    let querySql := update_sql (setCols built) idVarIdx in
    let! result := Store.query db querySql (values built ++ [id]) in
    match head result with
    | None => Store.raise (NotFoundError ("No job: " +:+ to_string id))
    | Some job => Store.ret job
    end.

Definition get_sql : string :=
  lines [ "SELECT id,";
          sp 18 +:+ "title,";
          sp 18 +:+ "salary,";
          sp 18 +:+ "equity,";
          sp 18 +:+ "company_handle";
          sp 11 +:+ "FROM jobs";
          sp 11 +:+ "WHERE id = $1" ].

Definition remove_sql : string :=
  lines [ "DELETE";
          sp 11 +:+ "FROM jobs";
          sp 11 +:+ "WHERE id = $1";
          sp 11 +:+ "RETURNING id" ].

Definition get (id : JsVal) : Store.Async Db Store.Row :=
  let! jobRes := Store.query db get_sql [id] in
  match head jobRes with
  | None => Store.raise (NotFoundError ("No job: " +:+ to_string id))
  | Some job => Store.ret job
  end.

(** [remove] returns [undefined]. *)
Definition remove (id : JsVal) : Store.Async Db unit :=
  let! result := Store.query db remove_sql [id] in
  match head result with
  | None => Store.raise (NotFoundError ("No job: " +:+ to_string id))
  | Some job => Store.ret tt
  end.

End WithDriver.

End Job.

(** ** models/company.js *)

Module Company.

Definition duplicateCheck_sql : string :=
  lines [ "SELECT handle";
          sp 11 +:+ "FROM companies";
          sp 11 +:+ "WHERE handle = $1" ].

Definition insert_sql : string :=
  lines [ "INSERT INTO companies";
          sp 11 +:+ "(handle, name, description, num_employees, logo_url)";
          sp 11 +:+ "VALUES ($1, $2, $3, $4, $5)";
          sp 11 +:+ "RETURNING handle, name, description, num_employees AS "
            +:+ dq +:+ "numEmployees" +:+ dq +:+ ", logo_url AS "
            +:+ dq +:+ "logoUrl" +:+ dq ].

Definition base_query : string :=
  lines [ "SELECT handle,";
          sp 20 +:+ "name,";
          sp 20 +:+ "description,";
          sp 20 +:+ "num_employees AS " +:+ dq +:+ "numEmployees" +:+ dq +:+ ",";
          sp 20 +:+ "logo_url AS " +:+ dq +:+ "logoUrl" +:+ dq;
          sp 17 +:+ "FROM companies" ].

Definition update_sql (setCols handleVarIdx : string) : string :=
  lines [ "UPDATE companies ";
          sp 22 +:+ "SET " +:+ setCols +:+ " ";
          sp 22 +:+ "WHERE handle = " +:+ handleVarIdx +:+ " ";
          sp 22 +:+ "RETURNING handle, ";
          sp 32 +:+ "name, ";
          sp 32 +:+ "description, ";
          sp 32 +:+ "num_employees AS " +:+ dq +:+ "numEmployees" +:+ dq +:+ ", ";
          sp 32 +:+ "logo_url AS " +:+ dq +:+ "logoUrl" +:+ dq ].

(** The alias map [update] passes to the builder. *)
Definition jsToSql : gmap string JsVal :=
  <[ "numEmployees" := JStr "num_employees" ]>
    (<[ "logoUrl" := JStr "logo_url" ]> ∅).

(** The three [if] blocks of [findAll], in source order. *)
Definition add_minEmployees (minEmployees : JsVal) (st : QueryParts)
    : QueryParts :=
  if strict_not_equals minEmployees JUndefined then
    let st := push_queryValues minEmployees st in
    push_whereExpressions
      ("num_employees >= $" +:+ pretty (length (queryValues st))) st
  else st.

Definition add_maxEmployees (maxEmployees : JsVal) (st : QueryParts)
    : QueryParts :=
  if strict_not_equals maxEmployees JUndefined then
    let st := push_queryValues maxEmployees st in
    push_whereExpressions
      ("num_employees <= $" +:+ pretty (length (queryValues st))) st
  else st.

Definition add_nameLike (nameLike : JsVal) (st : QueryParts) : QueryParts :=
  if strict_not_equals nameLike JUndefined then
    let st := push_queryValues
                (JStr ("%" +:+ to_string nameLike +:+ "%")) st in
    push_whereExpressions
      ("name ILIKE $" +:+ pretty (length (queryValues st))) st
  else st.

Definition findAll_parts (filters : option (gmap string JsVal)) : QueryParts :=
  let filters := filters_or_default filters in
  let st := {| whereExpressions := []; queryValues := [] |} in
  let minEmployees := Js.get filters "minEmployees" in
  let maxEmployees := Js.get filters "maxEmployees" in
  let nameLike := Js.get filters "nameLike" in
  let st := add_minEmployees minEmployees st in
  let st := add_maxEmployees maxEmployees st in
  let st := add_nameLike nameLike st in
  st.

(** The statement text and the arguments [findAll] hands to the driver. *)
Definition findAll_query (filters : option (gmap string JsVal))
    : string * list JsVal :=
  let st := findAll_parts filters in
  (finish_query base_query st " ORDER BY name", queryValues st).

Section WithDriver.
Context {Db : Type} (db : Store.Driver Db).

Definition create (data : gmap string JsVal)
      : Store.Async Db (option Store.Row) :=
    let handle := Js.get data "handle" in
    let name := Js.get data "name" in
    let description := Js.get data "description" in
    let numEmployees := Js.get data "numEmployees" in
    let logoUrl := Js.get data "logoUrl" in
    let! duplicateCheck := Store.query db duplicateCheck_sql [handle] in
    match head duplicateCheck with
    | Some _ =>
        Store.raise (BadRequestError
          ("Duplicate company: " +:+ to_string handle))
    | None =>
        let! result :=
          Store.query db insert_sql
            [handle; name; description; numEmployees; logoUrl] in
        let company := head result in
        Store.ret company
    end.

Definition findAll (filters : option (gmap string JsVal))
      : Store.Async Db (list Store.Row) :=
    let '(query, queryValues) := findAll_query filters in
    let! companiesRes := Store.query db query queryValues in
    Store.ret companiesRes.

Definition update (handle : JsVal) (data : JsObject)
      : Store.Async Db Store.Row :=
    let! built := Store.lift (sqlForPartialUpdate data (Some jsToSql)) in
    let handleVarIdx := "$" +:+ pretty (length (values built) + 1)%nat in
    let querySql := update_sql (setCols built) handleVarIdx in
    let! result := Store.query db querySql (values built ++ [handle]) in
    match head result with
    | None => Store.raise (NotFoundError ("No company: " +:+ to_string handle))
    | Some company => Store.ret company
    end.

Definition get_sql : string :=
  lines [ "SELECT handle,";
          sp 18 +:+ "name,";
          sp 18 +:+ "description,";
          sp 18 +:+ "num_employees AS " +:+ dq +:+ "numEmployees" +:+ dq +:+ ",";
          sp 18 +:+ "logo_url AS " +:+ dq +:+ "logoUrl" +:+ dq;
          sp 11 +:+ "FROM companies";
          sp 11 +:+ "WHERE handle = $1" ].

Definition get_jobs_sql : string :=
  lines [ "SELECT id, title, salary, equity";
          sp 8 +:+ "FROM jobs";
          sp 8 +:+ "WHERE company_handle = $1";
          sp 8 +:+ "ORDER BY id" ].

Definition remove_sql : string :=
  lines [ "DELETE";
          sp 11 +:+ "FROM companies";
          sp 11 +:+ "WHERE handle = $1";
          sp 11 +:+ "RETURNING handle" ].

(** What [get] returns: the company row after [company.jobs = ...].  The
    [jobs] property holds rows, so it is kept beside the row's scalar
    properties. *)
Record CompanyWithJobs : Type := mkCompanyWithJobs {
  company : Store.Row;
  jobs : list Store.Row
}.

Definition get (handle : JsVal) : Store.Async Db CompanyWithJobs :=
  let! companyRes := Store.query db get_sql [handle] in
  match head companyRes with
  | None => Store.raise (NotFoundError ("No company: " +:+ to_string handle))
  | Some company =>
      let! jobsRes := Store.query db get_jobs_sql [handle] in
      Store.ret {| company := company; jobs := jobsRes |}
  end.

(** [remove] returns [undefined]. *)
Definition remove (handle : JsVal) : Store.Async Db unit :=
  let! result := Store.query db remove_sql [handle] in
  match head result with
  | None => Store.raise (NotFoundError ("No company: " +:+ to_string handle))
  | Some company => Store.ret tt
  end.

End WithDriver.

End Company.

(** ** Reading a statement text back

    What the driver does with a text is outside this development, but two
    things about a text can be read off the text itself: which positional
    placeholders it mentions, and whether every quote opened in it is
    closed again. *)

Definition is_digit (c : ascii) : bool :=
  let n := nat_of_ascii c in Nat.leb 48 n && Nat.leb n 57.

Definition is_dollar (c : ascii) : bool := Nat.eqb (nat_of_ascii c) 36.

(** The numbers of the placeholders [$n] of a text, left to right.
    [reading] is the number read so far when the scan is inside one. *)
Fixpoint placeholders_from (reading : option nat) (s : string) : list nat :=
  match s with
  | EmptyString =>
      match reading with
      | Some n => [n]
      | None => []
      end
  | String c rest =>
      let restart := if is_dollar c then Some 0 else None in
      match reading with
      | Some n =>
          if is_digit c
          then placeholders_from (Some (10 * n + (nat_of_ascii c - 48))) rest
          else n :: placeholders_from restart rest
      | None => placeholders_from restart rest
      end
  end.

Definition placeholders (s : string) : list nat := placeholders_from None s.

(** The text has no [$] of its own. *)
Fixpoint no_dollar (s : string) : bool :=
  match s with
  | EmptyString => true
  | String c rest => negb (is_dollar c) && no_dollar rest
  end.

(** Where a scan of a statement text stands: in plain text, inside a
    double-quoted identifier, or inside a single-quoted literal. *)
Inductive LexState : Type := Plain | InIdentifier | InLiteral.

Definition lex_step (st : LexState) (c : ascii) : LexState :=
  let n := nat_of_ascii c in
  match st with
  | Plain =>
      if Nat.eqb n 34 then InIdentifier
      else if Nat.eqb n 39 then InLiteral
      else Plain
  | InIdentifier => if Nat.eqb n 34 then Plain else InIdentifier
  | InLiteral => if Nat.eqb n 39 then Plain else InLiteral
  end.

Fixpoint lex_from (st : LexState) (s : string) : LexState :=
  match s with
  | EmptyString => st
  | String c rest => lex_from (lex_step st c) rest
  end.

(** Every quoted identifier and literal of the text is closed.  A text
    that fails this cannot be tokenized: PostgreSQL answers it with a
    syntax error (unterminated quoted identifier / string). *)
Definition sql_quotes_closed (s : string) : bool :=
  match lex_from Plain s with
  | Plain => true
  | _ => false
  end.

(** A driver that tokenizes: it fails every text with an open quote. *)
Definition rejects_open_quotes {Db} (db : Store.Driver Db) : Prop :=
  ∀ text args st,
    sql_quotes_closed text = false →
    ∃ message st', db text args st = (Store.QueryFail message, st').

(** The smallest such driver: an empty database that only tokenizes. *)
Definition tokenizing_driver : Store.Driver unit :=
  λ text _ st,
    if sql_quotes_closed text then (Store.QueryRows [], st)
    else (Store.QueryFail "unterminated quoted identifier", st).

(** [s] occurs somewhere in [text]. *)
Definition occurs_in (s text : string) : bool :=
  match String.index 0 s text with
  | Some _ => true
  | None => false
  end.

(** ** The specification's reading of the builders

    These definitions follow the words of the specification, not the
    code; the theorems compare them with the code above. *)


(** The [N]th fragment, ["column"=$N]. *)
Definition fragment (column : string) (N : nat) : string :=
  dq +:+ column +:+ dq +:+ "=$" +:+ pretty N.


(** The filter keys that carry a value into the parameter list. *)
Inductive ValueFilter : Type :=
  | minEmployees | maxEmployees | nameLike | minSalary | titleLike.

Definition filter_key (fl : ValueFilter) : string :=
  match fl with
  | minEmployees => "minEmployees"
  | maxEmployees => "maxEmployees"
  | nameLike => "nameLike"
  | minSalary => "minSalary"
  | titleLike => "titleLike"
  end.

(** The predicate of a filter with its placeholder at [position]:
    inclusive comparisons for the bounds, a case-insensitive pattern match
    for the substrings. *)
Definition spec_predicate (fl : ValueFilter) (position : nat) : string :=
  match fl with
  | minEmployees => "num_employees >= $"
  | maxEmployees => "num_employees <= $"
  | nameLike => "name ILIKE $"
  | minSalary => "salary >= $"
  | titleLike => "title ILIKE $"
  end +:+ pretty position.

(** The parameter a filter binds: the supplied bound itself, or the
    supplied substring between two wildcard markers. *)
Definition spec_bound (fl : ValueFilter) (supplied : JsVal) : JsVal :=
  match fl with
  | minEmployees | maxEmployees | minSalary => supplied
  | nameLike | titleLike => JStr ("%" +:+ to_string supplied +:+ "%")
  end.

(** The [if] block of the source that handles a filter, and the assembly
    it belongs to. *)
Definition filter_block (fl : ValueFilter) : JsVal → QueryParts → QueryParts :=
  match fl with
  | minEmployees => Company.add_minEmployees
  | maxEmployees => Company.add_maxEmployees
  | nameLike => Company.add_nameLike
  | minSalary => Job.add_minSalary
  | titleLike => Job.add_titleLike
  end.

Definition filter_parts (fl : ValueFilter)
    : option (gmap string JsVal) → QueryParts :=
  match fl with
  | minEmployees | maxEmployees | nameLike => Company.findAll_parts
  | minSalary | titleLike => Job.findAll_parts
  end.

(** A key counts as present when its value is not [undefined]. *)
Definition present (filters : option (gmap string JsVal)) (key : string)
    : bool :=
  strict_not_equals (Js.get (filters_or_default filters) key) JUndefined.

Definition count_present (filters : option (gmap string JsVal))
    (keys : list string) : nat :=
  length (filter (λ key, present filters key = true) keys).

Definition Company_keys : list string :=
  ["minEmployees"; "maxEmployees"; "nameLike"].
Definition Job_keys : list string := ["minSalary"; "hasEquity"; "titleLike"].

(** The equity filter is in force: present and not [false]. *)
Definition equity_in_force (filters : option (gmap string JsVal)) : bool :=
  let hasEquity := Js.get (filters_or_default filters) "hasEquity" in
  strict_not_equals hasEquity JUndefined
  && strict_not_equals hasEquity (JBool false).

(** ** The operations of the two modules, and what they send

    A caller has [create], [findAll], [get], [update] and [remove] on
    either module.  To speak about the statements an operation hands to
    the driver, the driver is wrapped into one that also keeps a log. *)

Inductive Operation : Type :=
  | Company_create (data : gmap string JsVal)
  | Company_findAll (filters : option (gmap string JsVal))
  | Company_get (handle : JsVal)
  | Company_update (handle : JsVal) (data : JsObject)
  | Company_remove (handle : JsVal)
  | Job_create (data : gmap string JsVal)
  | Job_findAll (filters : option (gmap string JsVal))
  | Job_get (id : JsVal)
  | Job_update (id : JsVal) (data : JsObject)
  | Job_remove (id : JsVal).

(** How a run ended, without its result: the error thrown, if any. *)
Definition outcome {Db A} (m : Store.Async Db A) : Db → option Exn * Db :=
  λ st, match m st with
        | (inl e, st') => (Some e, st')
        | (inr _, st') => (None, st')
        end.

Definition perform {Db} (db : Store.Driver Db) (op : Operation)
    : Db → option Exn * Db :=
  match op with
  | Company_create data => outcome (Company.create db data)
  | Company_findAll filters => outcome (Company.findAll db filters)
  | Company_get handle => outcome (Company.get db handle)
  | Company_update handle data => outcome (Company.update db handle data)
  | Company_remove handle => outcome (Company.remove db handle)
  | Job_create data => outcome (Job.create db data)
  | Job_findAll filters => outcome (Job.findAll db filters)
  | Job_get id => outcome (Job.get db id)
  | Job_update id data => outcome (Job.update db id data)
  | Job_remove id => outcome (Job.remove db id)
  end.

(** One call of the driver: the statement text and its arguments. *)
Abbreviation Call := (string * list JsVal)%type.

(** The driver [db], keeping a log of the calls it receives. *)
Definition recording {Db} (db : Store.Driver Db)
    : Store.Driver (Db * list Call) :=
  λ text args st,
    match db text args st.1 with
    | (answer, st') => (answer, (st', (st.2 ++ [(text, args)])%list))
    end.

(** The calls an operation makes, in order, when run from state [st]. *)
Definition statements_sent {Db} (db : Store.Driver Db) (op : Operation)
    (st : Db) : list Call :=
  (perform (recording db) op (st, [])).2.2.

(** A driver that answers every statement with the same rows. *)
Definition answering (rows : list Store.Row) : Store.Driver unit :=
  λ _ _ st, (Store.QueryRows rows, st).

(** The text has no double quote of its own. *)
Fixpoint no_quote (s : string) : bool :=
  match s with
  | EmptyString => true
  | String c rest => negb (Nat.eqb (nat_of_ascii c) 34) && no_quote rest
  end.

(** How often [pattern] starts somewhere in [text]. *)
Fixpoint count_occurrences (pattern text : string) : nat :=
  match text with
  | EmptyString => 0
  | String _ rest =>
      (if String.prefix pattern text then 1 else 0)
      + count_occurrences pattern rest
  end.

(** The payload keys of an update have no [$], or no double quote, of
    their own; other operations interpolate nothing. *)
Definition keys_without_dollar (op : Operation) : Prop :=
  match op with
  | Company_update _ data | Job_update _ data =>
      Forall (λ kv : string * JsVal, no_dollar kv.1 = true) data
  | _ => True
  end.

Definition keys_without_quote (op : Operation) : Prop :=
  match op with
  | Company_update _ data | Job_update _ data =>
      Forall (λ kv : string * JsVal, no_quote kv.1 = true) data
  | _ => True
  end.

(** The fields the documentation of [Company.update] lists, and the
    columns of the [companies] table they stand for. *)
Definition Company_update_fields : list string :=
  ["name"; "description"; "numEmployees"; "logoUrl"].

Definition Company_update_columns : list string :=
  ["name"; "description"; "num_employees"; "logo_url"].

(** ** Rows, their order, and what the engine is assumed to do

    What a [SELECT] answers is the database engine's business.  Where a
    property speaks of the rows returned, the engine's part is stated as
    an assumption on the driver. *)




(** The two entities, with the parts of their [findAll]. *)
Inductive Entity : Type := Companies | Jobs.

Definition entity_base (e : Entity) : string :=
  match e with
  | Companies => Company.base_query
  | Jobs => Job.base_query
  end.

(** The fixed sort key: company name, or job title. *)
Definition entity_sort_key (e : Entity) : string :=
  match e with
  | Companies => "name"
  | Jobs => "title"
  end.

Definition entity_findAll_parts (e : Entity)
    : option (gmap string JsVal) → QueryParts :=
  match e with
  | Companies => Company.findAll_parts
  | Jobs => Job.findAll_parts
  end.

Definition entity_findAll_query (e : Entity)
    : option (gmap string JsVal) → string * list JsVal :=
  match e with
  | Companies => Company.findAll_query
  | Jobs => Job.findAll_query
  end.


(** The entity a value-carrying filter belongs to. *)
Definition filter_entity (fl : ValueFilter) : Entity :=
  match fl with
  | minEmployees | maxEmployees | nameLike => Companies
  | minSalary | titleLike => Jobs
  end.





(** ** Proof automation *)

(** Decides a membership or an equation between closed terms. *)
Ltac by_evaluation :=
  apply (bool_decide_unpack _); vm_compute; exact I.

(** Splits on every presence test left in the goal. *)
Ltac presence_cases :=
  repeat match goal with
         | |- context [strict_not_equals ?v ?w] =>
             destruct (strict_not_equals v w) eqn:?
         end.

(** Abstracts the three destructured filter values of an assembly. *)
Ltac abstract_filters filters k1 k2 k3 :=
  generalize (Js.get (filters_or_default filters) k1);
  generalize (Js.get (filters_or_default filters) k2);
  generalize (Js.get (filters_or_default filters) k3);
  intros ? ? ?.

(** Unfolds an operation run against the recording driver. *)
Ltac run_recorded :=
  unfold statements_sent, perform, outcome, Store.and_then, Store.query,
    Store.raise, Store.ret, Store.lift, recording;
  cbn [fst snd].

(** ** Facts about the JavaScript layer *)

Lemma strict_not_equals_undefined (v : JsVal) :
  strict_not_equals v JUndefined = true ↔ v ≠ JUndefined.
Proof. destruct v; cbn; split; (congruence || done). Qed.

Lemma strict_not_equals_false (v : JsVal) :
  strict_not_equals v (JBool false) = true ↔ v ≠ JBool false.
Proof. destruct v as [| |[]| | |]; cbn; split; (congruence || done). Qed.

Lemma strict_equals_string (v : JsVal) (s : string) :
  strict_equals v (JStr s) = true ↔ v = JStr s.
Proof.
  destruct v; cbn; try (split; (congruence || done)).
  rewrite String.eqb_eq. split; congruence.
Qed.

Lemma get_insert_eq (own : gmap string JsVal) (k : string) (v : JsVal) :
  Js.get (<[k := v]> own) k = v.
Proof. unfold Js.get. by rewrite lookup_insert_eq. Qed.

Lemma get_insert_ne (own : gmap string JsVal) (k k' : string) (v : JsVal) :
  k ≠ k' → Js.get (<[k := v]> own) k' = Js.get own k'.
Proof. intros Hne. unfold Js.get. by rewrite lookup_insert_ne. Qed.

Lemma get_delete_eq (own : gmap string JsVal) (k : string) :
  Js.get (delete k own) k = Object_prototype_get k.
Proof. unfold Js.get. by rewrite lookup_delete_eq. Qed.

Lemma get_delete_ne (own : gmap string JsVal) (k k' : string) :
  k ≠ k' → Js.get (delete k own) k' = Js.get own k'.
Proof. intros Hne. unfold Js.get. by rewrite lookup_delete_ne. Qed.

(** Numbers print as the engine prints them: plain digits for the
    integers a double holds, the shortest digits that read back as the same
    double beyond, exponent form from 10^21 on. *)
Lemma Number_to_string_samples :
  to_string (JNum 32) = "32"
  ∧ to_string (JNum (-150)) = "-150"
  ∧ to_string (JNum (2 ^ 53 - 1)) = "9007199254740991"
  ∧ to_string (JNum (2 ^ 53 + 1)) = "9007199254740992"
  ∧ to_string (JNum (2 ^ 63)) = "9223372036854776000"
  ∧ to_string (JNum (10 ^ 21 - 1)) = "1e+21"
  ∧ to_string (JNum (10 ^ 21)) = "1e+21"
  ∧ to_string (JNum (2 ^ 100)) = "1.2676506002282294e+30"
  ∧ to_string (JNum (- 2 ^ 1024)) = "-Infinity".
Proof. repeat split; vm_compute; reflexivity. Qed.

(** Numerals that round to one double are one Number to [===]. *)
Lemma strict_equals_Number_samples :
  strict_equals (JNum 7) (JNum 7) = true
  ∧ strict_equals (JNum 7) (JNum (-7)) = false
  ∧ strict_equals (JNum (2 ^ 53)) (JNum (2 ^ 53 + 1)) = true
  ∧ strict_equals (JNum (2 ^ 53)) (JNum (2 ^ 53 + 2)) = false
  ∧ strict_equals (JNum 0) (JNum 1) = false.
Proof. repeat split; vm_compute; reflexivity. Qed.

(** ** helpers/utils.js: [parseBool] *)

(** C9. [parseBool] is a total function without an error path: it
    returns [true] exactly on the strings "true" and "1", [false] exactly
    on the strings "false" and "0", and [null] on every other input, among
    them the empty string, the numbers 1 and 0, and [undefined]. *)
Theorem parseBool_recognizes_exactly_four_strings (value : JsVal) :
  (parseBool value = JBool true ↔ value = JStr "true" ∨ value = JStr "1")
  ∧ (parseBool value = JBool false ↔ value = JStr "false" ∨ value = JStr "0")
  ∧ (parseBool value = JNull ↔
       value ∉ [JStr "true"; JStr "1"; JStr "false"; JStr "0"])
  ∧ parseBool value ∈ [JBool true; JBool false; JNull]
  ∧ parseBool (JStr "") = JNull
  ∧ parseBool (JNum 1) = JNull
  ∧ parseBool (JNum 0) = JNull
  ∧ parseBool JUndefined = JNull.
Proof.
  assert (Hcases :
    (value = JStr "true" ∧ parseBool value = JBool true)
    ∨ (value = JStr "1" ∧ parseBool value = JBool true)
    ∨ (value = JStr "false" ∧ parseBool value = JBool false)
    ∨ (value = JStr "0" ∧ parseBool value = JBool false)
    ∨ ((value ∉ [JStr "true"; JStr "1"; JStr "false"; JStr "0"])
       ∧ parseBool value = JNull)).
  { unfold parseBool.
    destruct (strict_equals value (JStr "true")) eqn:Ht.
    { apply strict_equals_string in Ht. by left. }
    destruct (strict_equals value (JStr "1")) eqn:H1.
    { apply strict_equals_string in H1. right; by left. }
    destruct (strict_equals value (JStr "false")) eqn:Hf.
    { apply strict_equals_string in Hf. do 2 right; by left. }
    destruct (strict_equals value (JStr "0")) eqn:H0.
    { apply strict_equals_string in H0. do 3 right; by left. }
    do 4 right. split; [|done].
    rewrite !elem_of_cons, elem_of_nil.
    intros [->|[->|[->|[->|[]]]]]; cbn in *; congruence. }
  repeat split; try reflexivity.
  - intros Hp. destruct Hcases as [[? ?]|[[? ?]|[[? ?]|[[? ?]|[? ?]]]]];
      try (by left); try (by right); congruence.
  - intros [->| ->]; reflexivity.
  - intros Hp. destruct Hcases as [[? ?]|[[? ?]|[[? ?]|[[? ?]|[? ?]]]]];
      try (by left); try (by right); congruence.
  - intros [->| ->]; reflexivity.
  - intros Hp. destruct Hcases as [[-> ?]|[[-> ?]|[[-> ?]|[[-> ?]|[? ?]]]]];
      try done.
  - intros Hn. destruct Hcases as [[-> ?]|[[-> ?]|[[-> ?]|[[-> ?]|[? ?]]]]];
      try done; exfalso; apply Hn; set_solver.
  - destruct Hcases as [[? ->]|[[? ->]|[[? ->]|[[? ->]|[? ->]]]]]; set_solver.
Qed.

(** ** Scanning a text for placeholders *)

Lemma string_app_cons (c : ascii) (a b : string) :
  String c a +:+ b = String c (a +:+ b).
Proof. reflexivity. Qed.

Lemma string_app_assoc (a b c : string) : (a +:+ b) +:+ c = a +:+ (b +:+ c).
Proof.
  induction a as [|x a IH]; [done|]. by rewrite !string_app_cons, IH.
Qed.

(** Text without a [$] is skipped. *)
Lemma placeholders_skip (s t : string) :
  no_dollar s = true →
  placeholders_from None (s +:+ t) = placeholders_from None t.
Proof.
  induction s as [|c s IH]; [done|]. rewrite string_app_cons. cbn.
  intros [Hc Hs]%andb_prop. apply negb_true_iff in Hc. rewrite Hc. auto.
Qed.

Lemma digit_char (k : N) :
  (k < 10)%N →
  is_digit (pretty_N_char k) = true
  ∧ (nat_of_ascii (pretty_N_char k) - 48)%nat = N.to_nat k.
Proof.
  intros Hk.
  assert (k = 0 ∨ k = 1 ∨ k = 2 ∨ k = 3 ∨ k = 4 ∨ k = 5 ∨ k = 6 ∨ k = 7
          ∨ k = 8 ∨ k = 9)%N as Hcases by lia.
  repeat destruct Hcases as [->|Hcases]; try subst k; by vm_compute.
Qed.

(** The digits [pretty] prints are read back as the number printed. *)
Lemma read_digits (x : N) (s t : string) :
  placeholders_from (Some 0) (pretty_N_go x s +:+ t)
  = placeholders_from (Some (N.to_nat x)) (s +:+ t).
Proof.
  revert s. induction (N.lt_wf_0 x) as [x _ IH]; intros s.
  assert (x = 0 ∨ 0 < x)%N as [->|Hpos] by lia.
  { by rewrite pretty_N_go_0. }
  rewrite pretty_N_go_step by done.
  rewrite IH by (by apply N.div_lt).
  destruct (digit_char (x `mod` 10)%N) as [Hdigit Hvalue].
  { by apply N.mod_lt. }
  rewrite string_app_cons. cbn. rewrite Hdigit, Hvalue. f_equal. f_equal.
  pose proof (N.div_mod x 10 ltac:(done)) as Hx. lia.
Qed.

Lemma read_pretty (n : nat) (t : string) :
  placeholders_from (Some 0) (pretty n +:+ t) = placeholders_from (Some n) t.
Proof.
  unfold pretty, pretty_nat, pretty, pretty_N.
  case_decide as Hn.
  - assert (n = 0%nat) as -> by lia. reflexivity.
  - rewrite read_digits. by rewrite Nat2N.id.
Qed.

Lemma string_app_nil_r (s : string) : s +:+ "" = s.
Proof. induction s as [|c s IH]; [done|]. by rewrite string_app_cons, IH. Qed.

(** A fragment contributes its own placeholder, and nothing else when
    the column name has no [$]. *)
Lemma placeholders_fragment (column : string) (N : nat) (rest : string) :
  no_dollar column = true →
  placeholders_from None (fragment column N +:+ rest)
  = placeholders_from (Some N) rest.
Proof.
  intros Hcolumn. unfold fragment. rewrite !string_app_assoc.
  rewrite (placeholders_skip dq) by reflexivity.
  rewrite (placeholders_skip column) by done.
  rewrite (placeholders_skip dq) by reflexivity.
  change ("=$" +:+ pretty N +:+ rest)
    with (String "=" (String "$" (pretty N +:+ rest))).
  cbn. apply read_pretty.
Qed.

Lemma join_cons_cons (sep x y : string) (l : list string) :
  Js.join sep (x :: y :: l) = x +:+ sep +:+ Js.join sep (y :: l).
Proof. reflexivity. Qed.


(** ** helpers/sql.js: [sqlForPartialUpdate] *)

Lemma array_map_from_ok {A B} (f : A → nat → B) (xs : list A) (idx : nat) :
  array_map_from idx (λ x i, ok (f x i)) xs
  = ok (imap (λ i x, f x (idx + i)) xs).
Proof.
  revert idx. induction xs as [|x xs IH]; intros idx; [done|].
  cbn. rewrite IH. cbn. unfold ok. do 2 f_equal.
  - by rewrite Nat.add_0_r.
  - apply imap_ext. intros i y _. cbn. f_equal. lia.
Qed.

(** With an alias map, no callback throws: the columns are the keys
    mapped one by one. *)
Lemma sqlForPartialUpdate_with_alias_map (data : JsObject)
    (alias : gmap string JsVal) :
  data ≠ [] →
  sqlForPartialUpdate data (Some alias)
  = ok {| setCols :=
            Js.join ", "
              (imap (λ i kv,
                 fragment
                   (to_string (or_else (Js.get alias kv.1) (JStr kv.1)))
                   (S i)) data);
          values := map snd data |}.
Proof.
  intros Hne. unfold sqlForPartialUpdate, Object_keys, Object_values.
  destruct data as [|kv data]; [done|].
  change (Nat.eqb (length (map fst (kv :: data))) 0) with false. cbv iota.
  unfold array_map, jsToSql_get.
  change (array_map_from 0 _ (map fst (kv :: data))) with
    (array_map_from 0
       (λ colName idx,
          ok (dq +:+ to_string (or_else (Js.get alias colName) (JStr colName))
                 +:+ dq +:+ "=$" +:+ pretty (idx + 1)%nat))
       (map fst (kv :: data))).
  rewrite array_map_from_ok.
  unfold Js.bind, ok. do 3 f_equal.
  rewrite imap_fmap. apply imap_ext. intros i [k v] _. cbn.
  unfold fragment. by rewrite Nat.add_1_r.
Qed.

(** Without one, the first callback already throws. *)
Lemma sqlForPartialUpdate_without_alias_map (key : string) (v : JsVal)
    (rest : JsObject) :
  sqlForPartialUpdate ((key, v) :: rest) None = throw (TypeError key).
Proof. reflexivity. Qed.

(** C2. Whatever the alias map (also when none is passed), an empty
    [dataToUpdate] makes [sqlForPartialUpdate] raise a [BadRequestError],
    and a [BadRequestError] is raised in the empty case only. *)
Theorem sqlForPartialUpdate_BadRequestError_iff_empty (dataToUpdate : JsObject)
    (jsToSql : option (gmap string JsVal)) :
  (dataToUpdate = [] ↔
     ∃ e, sqlForPartialUpdate dataToUpdate jsToSql = throw e
          ∧ is_BadRequestError e = true)
  ∧ (dataToUpdate = [] ↔
     sqlForPartialUpdate dataToUpdate jsToSql
     = throw (BadRequestError "No data")).
Proof.
  assert (Hcons : ∀ kv rest e,
    sqlForPartialUpdate (kv :: rest) jsToSql = throw e →
    is_BadRequestError e = false).
  { intros [key v] rest e. destruct jsToSql as [alias|].
    - by rewrite sqlForPartialUpdate_with_alias_map.
    - rewrite sqlForPartialUpdate_without_alias_map.
      intros [= <-]. reflexivity. }
  split; split.
  - intros ->. by exists (BadRequestError "No data").
  - intros (e & He & Hbad). destruct dataToUpdate as [|kv rest]; [done|].
    apply Hcons in He. congruence.
  - by intros ->.
  - intros He. destruct dataToUpdate as [|kv rest]; [done|].
    apply Hcons in He. done.
Qed.

Lemma lookup_map {A B} (f : A → B) (l : list A) (i : nat) :
  map f l !! i = f <$> l !! i.
Proof. revert i. induction l as [|x l IH]; intros [|i]; cbn; auto. Qed.






(** ** [findAll]: the shape of the assembled query *)

(** The predicates and parameters [Job.findAll] ends up with, by which
    filters are in force. *)
Lemma Job_findAll_parts_shape (filters : option (gmap string JsVal)) :
  let given := filters_or_default filters in
  let minSalary := Js.get given "minSalary" in
  let hasEquity := Js.get given "hasEquity" in
  let titleLike := Js.get given "titleLike" in
  let with_minSalary := strict_not_equals minSalary JUndefined in
  let with_titleLike := strict_not_equals titleLike JUndefined in
  Job.findAll_parts filters
  = {| whereExpressions :=
         (if with_minSalary then ["salary >= $1"] else [])
         ++ (if equity_in_force filters then ["equity > 0"] else [])
         ++ (if with_titleLike
             then [if with_minSalary then "title ILIKE $2"
                   else "title ILIKE $1"]
             else []);
       queryValues :=
         (if with_minSalary then [minSalary] else [])
         ++ (if with_titleLike
             then [JStr ("%" +:+ to_string titleLike +:+ "%")]
             else []) |}.
Proof.
  cbv zeta. unfold Job.findAll_parts, equity_in_force.
  generalize (Js.get (filters_or_default filters) "minSalary").
  generalize (Js.get (filters_or_default filters) "hasEquity").
  generalize (Js.get (filters_or_default filters) "titleLike").
  intros titleLike hasEquity minSalary.
  unfold Job.add_minSalary, Job.add_hasEquity, Job.add_titleLike.
  presence_cases; reflexivity.
Qed.

Lemma Company_findAll_parts_shape (filters : option (gmap string JsVal)) :
  let given := filters_or_default filters in
  let minEmployees := Js.get given "minEmployees" in
  let maxEmployees := Js.get given "maxEmployees" in
  let nameLike := Js.get given "nameLike" in
  let with_min := strict_not_equals minEmployees JUndefined in
  let with_max := strict_not_equals maxEmployees JUndefined in
  let with_name := strict_not_equals nameLike JUndefined in
  Company.findAll_parts filters
  = {| whereExpressions :=
         (if with_min then ["num_employees >= $1"] else [])
         ++ (if with_max
             then [if with_min then "num_employees <= $2"
                   else "num_employees <= $1"]
             else [])
         ++ (if with_name
             then [match with_min, with_max with
                   | true, true => "name ILIKE $3"
                   | true, false | false, true => "name ILIKE $2"
                   | false, false => "name ILIKE $1"
                   end]
             else []);
       queryValues :=
         (if with_min then [minEmployees] else [])
         ++ (if with_max then [maxEmployees] else [])
         ++ (if with_name
             then [JStr ("%" +:+ to_string nameLike +:+ "%")]
             else []) |}.
Proof.
  cbv zeta. unfold Company.findAll_parts.
  generalize (Js.get (filters_or_default filters) "minEmployees").
  generalize (Js.get (filters_or_default filters) "maxEmployees").
  generalize (Js.get (filters_or_default filters) "nameLike").
  intros nameLike maxEmployees minEmployees.
  unfold Company.add_minEmployees, Company.add_maxEmployees,
    Company.add_nameLike.
  presence_cases; reflexivity.
Qed.

(** [findAll] is one round trip: the rows are the driver's, as they
    come. *)
Lemma Job_findAll_one_query {Db} (db : Store.Driver Db)
    (filters : option (gmap string JsVal)) (st : Db) :
  Job.findAll db filters st
  = Store.query db (Job.findAll_query filters).1 (Job.findAll_query filters).2
      st.
Proof.
  unfold Job.findAll. destruct (Job.findAll_query filters) as [query vals].
  unfold Store.and_then, Store.ret, Store.query. cbn.
  destruct (db query vals st) as [[rows|message] st']; reflexivity.
Qed.


(** When the equity predicate is among the predicates. *)
Lemma Job_findAll_equity_predicate_shape_free
    (filters : option (gmap string JsVal)) :
  "equity > 0" ∈ whereExpressions (Job.findAll_parts filters)
  ↔ Js.get (filters_or_default filters) "hasEquity" ≠ JUndefined
    ∧ Js.get (filters_or_default filters) "hasEquity" ≠ JBool false.
Proof.
  rewrite Job_findAll_parts_shape. cbv zeta. unfold equity_in_force.
  rewrite <- strict_not_equals_undefined, <- strict_not_equals_false.
  generalize (Js.get (filters_or_default filters) "hasEquity").
  generalize (Js.get (filters_or_default filters) "minSalary").
  generalize (Js.get (filters_or_default filters) "titleLike").
  intros titleLike minSalary hasEquity.
  presence_cases; cbn;
    rewrite ?elem_of_cons, ?elem_of_nil;
    intuition (first [congruence | auto]).
Qed.

(** C10. In [Job.findAll] the predicate [equity > 0] is emitted for
    every [hasEquity] that is neither [undefined] nor the boolean
    [false], so also for [null], 0, the empty string and the string
    "false"; only [undefined] and [false] suppress it. *)
Theorem Job_findAll_equity_predicate_iff (filters : option (gmap string JsVal)) :
  let hasEquity := Js.get (filters_or_default filters) "hasEquity" in
  ("equity > 0" ∈ whereExpressions (Job.findAll_parts filters)
   ↔ hasEquity ≠ JUndefined ∧ hasEquity ≠ JBool false)
  ∧ (occurs_in "equity > 0" (Job.findAll_query filters).1 = true
     ↔ hasEquity ≠ JUndefined ∧ hasEquity ≠ JBool false)
  ∧ "equity > 0" ∈ whereExpressions
       (Job.findAll_parts (Some {[ "hasEquity" := JNull ]}))
  ∧ "equity > 0" ∈ whereExpressions
       (Job.findAll_parts (Some {[ "hasEquity" := JNum 0 ]}))
  ∧ "equity > 0" ∈ whereExpressions
       (Job.findAll_parts (Some {[ "hasEquity" := JStr "" ]}))
  ∧ "equity > 0" ∈ whereExpressions
       (Job.findAll_parts (Some {[ "hasEquity" := JStr "false" ]})).
Proof.
  cbv zeta.
  split; [|split; [|repeat split; by_evaluation]].
  - apply Job_findAll_equity_predicate_shape_free.
  - unfold Job.findAll_query. rewrite Job_findAll_parts_shape.
    cbv zeta. unfold equity_in_force.
    rewrite <- strict_not_equals_undefined, <- strict_not_equals_false.
    generalize (Js.get (filters_or_default filters) "hasEquity").
    generalize (Js.get (filters_or_default filters) "minSalary").
    generalize (Js.get (filters_or_default filters) "titleLike").
    intros titleLike minSalary hasEquity.
    presence_cases; vm_compute; intuition (first [congruence | auto]).
Qed.

(** C5. For every job filter mapping, [Job.findAll] with [hasEquity]
    present and [false] hands the driver exactly the statement and the
    arguments it hands it with [hasEquity] absent, and so gets the same
    rows: no equity predicate is emitted and nothing is bound for it. *)
Theorem Job_findAll_hasEquity_false_is_absent (filters : gmap string JsVal) :
  let with_false := Some (<[ "hasEquity" := JBool false ]> filters) in
  let without := Some (delete "hasEquity" filters) in
  Job.findAll_query with_false = Job.findAll_query without
  ∧ (∀ Db (db : Store.Driver Db) (st : Db),
       Job.findAll db with_false st = Job.findAll db without st)
  ∧ ("equity > 0" ∉ whereExpressions (Job.findAll_parts with_false))
  ∧ length (queryValues (Job.findAll_parts with_false))
    = count_present with_false ["minSalary"; "titleLike"].
Proof.
  cbv zeta.
  assert (Hparts :
    Job.findAll_parts (Some (<[ "hasEquity" := JBool false ]> filters))
    = Job.findAll_parts (Some (delete "hasEquity" filters))).
  { unfold Job.findAll_parts, filters_or_default.
    rewrite get_insert_eq, get_delete_eq.
    rewrite !get_insert_ne, !get_delete_ne by done.
    reflexivity. }
  assert (Hquery :
    Job.findAll_query (Some (<[ "hasEquity" := JBool false ]> filters))
    = Job.findAll_query (Some (delete "hasEquity" filters))).
  { unfold Job.findAll_query. by rewrite Hparts. }
  split; [exact Hquery|]. split.
  { intros Db db st. by rewrite !Job_findAll_one_query, Hquery. }
  split.
  - intros Hin.
    apply (proj1 (Job_findAll_equity_predicate_shape_free _)) in Hin.
    revert Hin. unfold filters_or_default. rewrite get_insert_eq.
    intros [_ Hne]. by apply Hne.
  - rewrite Job_findAll_parts_shape. cbv zeta.
    unfold count_present. rewrite !filter_cons, filter_nil.
    unfold present, filters_or_default.
    generalize (Js.get (<[ "hasEquity" := JBool false ]> filters) "minSalary").
    generalize (Js.get (<[ "hasEquity" := JBool false ]> filters) "titleLike").
    intros titleLike minSalary.
    destruct (strict_not_equals minSalary JUndefined),
      (strict_not_equals titleLike JUndefined); reflexivity.
Qed.

(** The statement of a [findAll], from the parts it assembled. *)
Lemma entity_findAll_query_text (e : Entity)
    (filters : option (gmap string JsVal)) :
  entity_findAll_query e filters
  = (finish_query (entity_base e) (entity_findAll_parts e filters)
       (" ORDER BY " +:+ entity_sort_key e),
     queryValues (entity_findAll_parts e filters)).
Proof. by destruct e. Qed.






(** What a value-carrying [if] block does to the query under assembly. *)
Lemma filter_block_appends (fl : ValueFilter) (v : JsVal) (st : QueryParts) :
  filter_block fl v st
  = if strict_not_equals v JUndefined then
      {| whereExpressions :=
           whereExpressions st
           ++ [spec_predicate fl (S (length (queryValues st)))];
         queryValues := queryValues st ++ [spec_bound fl v] |}
    else st.
Proof.
  destruct fl; cbn [filter_block];
    unfold Company.add_minEmployees, Company.add_maxEmployees,
      Company.add_nameLike, Job.add_minSalary, Job.add_titleLike;
    destruct (strict_not_equals v JUndefined); try reflexivity;
    unfold push_whereExpressions, push_queryValues, spec_predicate, spec_bound;
    cbn [whereExpressions queryValues];
    rewrite length_app, Nat.add_1_r; reflexivity.
Qed.

(** C4, as the code has it. In every [findAll] assembly each present
    value-carrying filter key ([minEmployees], [maxEmployees], [nameLike],
    [minSalary], [titleLike]) appends exactly one predicate and exactly one
    value, the predicate's placeholder being the length of the parameter
    list after the append; [hasEquity], when present and not [false],
    appends exactly one predicate, [equity > 0], which has no placeholder
    and binds no value; nothing appended earlier is changed.  So the
    placeholders of the final statement are [$1 .. $n] in this order, [n]
    being the length of the final parameter list. *)
Theorem findAll_placeholders_follow_parameters :
  (∀ (fl : ValueFilter) (v : JsVal) (st : QueryParts),
     filter_block fl v st
     = if strict_not_equals v JUndefined then
         {| whereExpressions :=
              whereExpressions st
              ++ [spec_predicate fl (S (length (queryValues st)))];
            queryValues := queryValues st ++ [spec_bound fl v] |}
       else st)
  ∧ (∀ (hasEquity : JsVal) (st : QueryParts),
       Job.add_hasEquity hasEquity st
       = if strict_not_equals hasEquity JUndefined
            && strict_not_equals hasEquity (JBool false) then
           {| whereExpressions := whereExpressions st ++ ["equity > 0"];
              queryValues := queryValues st |}
         else st)
  ∧ (∀ filters : option (gmap string JsVal),
       let given := filters_or_default filters in
       let parts := Company.findAll_parts filters in
       parts
       = filter_block nameLike (Js.get given "nameLike")
           (filter_block maxEmployees (Js.get given "maxEmployees")
              (filter_block minEmployees (Js.get given "minEmployees")
                 {| whereExpressions := []; queryValues := [] |}))
       ∧ placeholders (Company.findAll_query filters).1
         = seq 1 (length (Company.findAll_query filters).2)
       ∧ length (queryValues parts) = count_present filters Company_keys
       ∧ length (whereExpressions parts) = count_present filters Company_keys)
  ∧ (∀ filters : option (gmap string JsVal),
       let given := filters_or_default filters in
       let parts := Job.findAll_parts filters in
       parts
       = filter_block titleLike (Js.get given "titleLike")
           (Job.add_hasEquity (Js.get given "hasEquity")
              (filter_block minSalary (Js.get given "minSalary")
                 {| whereExpressions := []; queryValues := [] |}))
       ∧ placeholders (Job.findAll_query filters).1
         = seq 1 (length (Job.findAll_query filters).2)
       ∧ length (queryValues parts)
         = count_present filters ["minSalary"; "titleLike"]
       ∧ length (whereExpressions parts)
         = (length (queryValues parts)
            + if equity_in_force filters then 1 else 0)%nat).
Proof.
  split; [exact filter_block_appends|].
  split; [intros hasEquity st; unfold Job.add_hasEquity;
          by destruct (_ && _)|].
  split.
  - intros filters. cbv zeta. split; [reflexivity|].
    unfold Company.findAll_query. cbn [fst snd].
    rewrite Company_findAll_parts_shape. cbv zeta.
    unfold count_present, Company_keys. rewrite !filter_cons, filter_nil.
    unfold present.
    abstract_filters filters "minEmployees" "maxEmployees" "nameLike".
    presence_cases; repeat split; vm_compute; reflexivity.
  - intros filters. cbv zeta. split; [reflexivity|].
    unfold Job.findAll_query. cbn [fst snd].
    rewrite Job_findAll_parts_shape. cbv zeta.
    unfold count_present. rewrite !filter_cons, filter_nil.
    unfold present, equity_in_force.
    abstract_filters filters "minSalary" "hasEquity" "titleLike".
    presence_cases; repeat split; vm_compute; reflexivity.
Qed.

(** C4 as the specification words it fails for the equity flag: the key
    is recognized and present, one predicate is appended, and the
    parameter list stays as it was. *)
Lemma Job_findAll_hasEquity_true_binds_nothing :
  let filters : option (gmap string JsVal) :=
    Some {[ "hasEquity" := JBool true ]} in
  present filters "hasEquity" = true
  ∧ count_present filters Job_keys = 1
  ∧ whereExpressions (Job.findAll_parts filters) = ["equity > 0"]
  ∧ queryValues (Job.findAll_parts filters) = []
  ∧ length (queryValues (Job.findAll_parts filters))
    ≠ count_present filters Job_keys.
Proof.
  cbv zeta. repeat split; try (vm_compute; reflexivity).
  vm_compute. discriminate.
Qed.

(** Where a present value-carrying filter ends up in the parts. *)
Lemma filter_predicate_in_parts (fl : ValueFilter)
    (filters : option (gmap string JsVal)) (supplied : JsVal) :
  Js.get (filters_or_default filters) (filter_key fl) = supplied →
  supplied ≠ JUndefined →
  ∃ k : nat,
    spec_predicate fl (S k) ∈ whereExpressions (filter_parts fl filters)
    ∧ queryValues (filter_parts fl filters) !! k
      = Some (spec_bound fl supplied).
Proof.
  intros Hget Hpresent. apply strict_not_equals_undefined in Hpresent.
  destruct fl; cbn [filter_key filter_parts spec_bound] in *;
    rewrite ?Company_findAll_parts_shape, ?Job_findAll_parts_shape;
    cbv zeta; unfold equity_in_force; rewrite Hget, Hpresent;
    presence_cases; cbn [whereExpressions queryValues];
    first [ exists 0; split; [by_evaluation|reflexivity]
          | exists 1; split; [by_evaluation|reflexivity]
          | exists 2; split; [by_evaluation|reflexivity] ].
Qed.

(** C7. For every present substring filter ([nameLike], [titleLike])
    the statement sent carries, in its [WHERE] conjunction, an [ILIKE]
    pattern match whose bound parameter is the supplied substring between
    two [%] wildcards, and for every present numeric bound ([minEmployees],
    [maxEmployees], [minSalary]) an inclusive comparison, [>=] for a minimum
    and [<=] for a maximum, binding the supplied value: the predicate
    mentions placeholder [$k] and the [k]th argument is that value. *)
Theorem findAll_filter_predicate_and_parameter (fl : ValueFilter)
    (filters : option (gmap string JsVal)) (supplied : JsVal) :
  Js.get (filters_or_default filters) (filter_key fl) = supplied →
  supplied ≠ JUndefined →
  ∃ (k : nat) (before after : list string),
    (entity_findAll_query (filter_entity fl) filters).1
    = (entity_base (filter_entity fl) +:+ " WHERE "
       +:+ Js.join " AND " (before ++ spec_predicate fl (S k) :: after))
      +:+ " ORDER BY " +:+ entity_sort_key (filter_entity fl)
    ∧ match fl with
      | nameLike | titleLike =>
          ∀ substring, supplied = JStr substring →
            (entity_findAll_query (filter_entity fl) filters).2 !! k
            = Some (JStr ("%" +:+ substring +:+ "%"))
      | minEmployees | maxEmployees | minSalary =>
          (entity_findAll_query (filter_entity fl) filters).2 !! k
          = Some supplied
      end.
Proof.
  intros Hget Hpresent.
  destruct (filter_predicate_in_parts fl filters supplied Hget Hpresent)
    as (k & Hpredicate & Hbound).
  apply list_elem_of_split in Hpredicate as (before & after & Hparts).
  exists k, before, after.
  rewrite entity_findAll_query_text. cbn [fst snd].
  replace (entity_findAll_parts (filter_entity fl)) with (filter_parts fl)
    by (by destruct fl).
  split.
  - unfold finish_query. rewrite Hparts.
    replace (Nat.ltb 0 (length (before ++ spec_predicate fl (S k) :: after)))
      with true; [reflexivity|].
    rewrite length_app. cbn [length]. symmetry. apply Nat.ltb_lt. lia.
  - rewrite Hbound. destruct fl; cbn [spec_bound]; try reflexivity.
    + by intros substring ->.
    + by intros substring ->.
Qed.

Lemma findAll_filter_predicate_and_parameter_witness :
  let filters : option (gmap string JsVal) :=
    Some (<[ "minSalary" := JNum 150 ]> {[ "titleLike" := JStr "data" ]}) in
  Js.get (filters_or_default filters) "titleLike" = JStr "data"
  ∧ JStr "data" ≠ JUndefined
  ∧ ∃ (k : nat) (before after : list string),
      (Job.findAll_query filters).1
      = (Job.base_query +:+ " WHERE "
         +:+ Js.join " AND " (before ++ spec_predicate titleLike (S k) :: after))
        +:+ " ORDER BY " +:+ "title"
      ∧ ∀ substring, JStr "data" = JStr substring →
          (Job.findAll_query filters).2 !! k
          = Some (JStr ("%" +:+ substring +:+ "%")).
Proof.
  cbv zeta. split; [vm_compute; reflexivity|]. split; [discriminate|].
  apply (findAll_filter_predicate_and_parameter titleLike
           (Some (<[ "minSalary" := JNum 150 ]> {[ "titleLike" := JStr "data" ]}))
           (JStr "data")).
  - vm_compute; reflexivity.
  - discriminate.
Defined.

(** ** [create] and [update] *)

(** [Company.update] builds the clause, numbers the key placeholder after
    the values, runs the one statement and reads its first row. *)
Lemma Company_update_one_statement {Db} (db : Store.Driver Db)
    (handle : JsVal) (data : JsObject) (st : Db) :
  data ≠ [] →
  ∃ built : PartialUpdate,
    sqlForPartialUpdate data (Some Company.jsToSql) = ok built
    ∧ values built = map snd data
    ∧ Company.update db handle data st
      = match db (Company.update_sql (setCols built)
                    ("$" +:+ pretty (length (values built) + 1)%nat))
                 (values built ++ [handle])%list st with
        | (Store.QueryRows (company :: _), st') => (inr company, st')
        | (Store.QueryRows [], st') =>
            (inl (NotFoundError ("No company: " +:+ to_string handle)), st')
        | (Store.QueryFail message, st') =>
            (inl (DatabaseError message), st')
        end.
Proof.
  intros Hne. eexists. split; [by apply sqlForPartialUpdate_with_alias_map|].
  split; [reflexivity|].
  unfold Company.update.
  rewrite (sqlForPartialUpdate_with_alias_map data Company.jsToSql Hne).
  unfold Store.and_then, Store.lift, Store.query, Store.raise, Store.ret, ok.
  cbn [values setCols].
  destruct (db _ _ st) as [[[|company rows]|message] st']; reflexivity.
Qed.

(** An empty payload is refused by either [update] before any statement
    is sent. *)
Lemma update_empty_payload {Db} (db : Store.Driver Db) (key : JsVal) (st : Db) :
  Job.update db key [] st = (inl (BadRequestError "No data"), st)
  ∧ Company.update db key [] st = (inl (BadRequestError "No data"), st).
Proof. split; reflexivity. Qed.

(** C3, at the point where the code departs from it. [Job.update]
    calls the builder without an alias map, so for every key and every
    non-empty payload the builder's first property read throws a
    [TypeError]: no statement reaches the driver, no record is returned and
    no not-found error is raised, whatever the driver would have answered.
    With an alias map, even an empty one, the builder accepts the same
    payload. *)
Theorem Job_update_throws_before_querying {Db} (db : Store.Driver Db)
    (id : JsVal) (key : string) (v : JsVal) (rest : JsObject) (st : Db) :
  let data := (key, v) :: rest in
  Job.update db id data st = (inl (TypeError key), st)
  ∧ (∀ job st', Job.update db id data st ≠ (inr job, st'))
  ∧ (∀ message st',
       Job.update db id data st ≠ (inl (NotFoundError message), st'))
  ∧ ∃ built : PartialUpdate,
      sqlForPartialUpdate data (Some ∅) = ok built
      ∧ values built = map snd data.
Proof.
  cbv zeta.
  assert (Hrun : Job.update db id ((key, v) :: rest) st
                 = (inl (TypeError key), st)) by reflexivity.
  split; [exact Hrun|]. rewrite Hrun.
  split; [intros job st'; discriminate|].
  split; [intros message st'; discriminate|].
  eexists. split; [by apply sqlForPartialUpdate_with_alias_map|reflexivity].
Qed.

(** [Company.create] checks for the handle, refuses a duplicate, and
    otherwise inserts and returns the first returned row; its [INSERT]
    text closes every quote it opens. *)
Lemma Company_create_checks_then_inserts {Db} (db : Store.Driver Db)
    (data : gmap string JsVal) (st : Db) :
  let handle := Js.get data "handle" in
  Company.create db data st
  = match db Company.duplicateCheck_sql [handle] st with
    | (Store.QueryFail message, st1) => (inl (DatabaseError message), st1)
    | (Store.QueryRows (_ :: _), st1) =>
        (inl (BadRequestError ("Duplicate company: " +:+ to_string handle)),
         st1)
    | (Store.QueryRows [], st1) =>
        match db Company.insert_sql
                 [handle; Js.get data "name"; Js.get data "description";
                  Js.get data "numEmployees"; Js.get data "logoUrl"] st1 with
        | (Store.QueryRows rows, st2) => (inr (head rows), st2)
        | (Store.QueryFail message, st2) => (inl (DatabaseError message), st2)
        end
    end
  ∧ sql_quotes_closed Company.insert_sql = true.
Proof.
  cbv zeta. split; [|vm_compute; reflexivity].
  unfold Company.create, Store.and_then, Store.query, Store.raise, Store.ret.
  destruct (db Company.duplicateCheck_sql _ st) as [[[|dup rows]|message] st1];
    cbn [head]; try reflexivity.
  destruct (db Company.insert_sql _ st1) as [[rows|message] st2]; reflexivity.
Qed.

(** [Job.create] makes the same two round trips, on the title and the
    company handle together. *)
Lemma Job_create_checks_then_inserts {Db} (db : Store.Driver Db)
    (data : gmap string JsVal) (st : Db) :
  let title := Js.get data "title" in
  let company_handle := Js.get data "company_handle" in
  Job.create db data st
  = match db Job.duplicateCheck_sql [title; company_handle] st with
    | (Store.QueryFail message, st1) => (inl (DatabaseError message), st1)
    | (Store.QueryRows (_ :: _), st1) =>
        (inl (BadRequestError
                ("Duplicate job: " +:+ to_string title +:+ " at company "
                   +:+ to_string company_handle)),
         st1)
    | (Store.QueryRows [], st1) =>
        match db Job.insert_sql
                 [title; Js.get data "salary"; Js.get data "equity";
                  company_handle] st1 with
        | (Store.QueryRows rows, st2) => (inr (head rows), st2)
        | (Store.QueryFail message, st2) => (inl (DatabaseError message), st2)
        end
    end.
Proof.
  cbv zeta.
  unfold Job.create, Store.and_then, Store.query, Store.raise, Store.ret.
  destruct (db Job.duplicateCheck_sql _ st) as [[[|dup rows]|message] st1];
    cbn [head]; try reflexivity.
  destruct (db Job.insert_sql _ st1) as [[rows|message] st2]; reflexivity.
Qed.

Lemma tokenizing_driver_rejects_open_quotes :
  rejects_open_quotes tokenizing_driver.
Proof.
  intros text args st Hopen. unfold tokenizing_driver. rewrite Hopen. eauto.
Qed.

(** C8, at the point where the code departs from it. The [INSERT]
    text of [Job.create] ends inside a double-quoted identifier that is
    never closed.  Against a driver that tokenizes its statements, a create
    whose duplicate check finds nothing therefore fails with the driver's
    error: no row is inserted and no record, hence no generated id, is
    returned. *)
Theorem Job_create_insert_is_rejected {Db} (db : Store.Driver Db)
    (data : gmap string JsVal) (st st1 : Db) :
  rejects_open_quotes db →
  db Job.duplicateCheck_sql
     [Js.get data "title"; Js.get data "company_handle"] st
  = (Store.QueryRows [], st1) →
  sql_quotes_closed Job.insert_sql = false
  ∧ ∃ message st2,
      Job.create db data st = (inl (DatabaseError message), st2).
Proof.
  intros Hdb Hfresh.
  assert (Hopen : sql_quotes_closed Job.insert_sql = false)
    by (vm_compute; reflexivity).
  split; [exact Hopen|].
  destruct (Hdb Job.insert_sql
              [Js.get data "title"; Js.get data "salary";
               Js.get data "equity"; Js.get data "company_handle"]
              st1 Hopen) as (message & st2 & Hinsert).
  exists message, st2.
  pose proof (Job_create_checks_then_inserts db data st) as Hrun.
  cbv zeta in Hrun. rewrite Hrun, Hfresh, Hinsert. reflexivity.
Qed.

Lemma Job_create_insert_is_rejected_witness :
  let data : gmap string JsVal :=
    <[ "title" := JStr "new" ]> (<[ "salary" := JNum 4 ]>
      (<[ "equity" := JNum 0 ]> {[ "company_handle" := JStr "c1" ]})) in
  rejects_open_quotes tokenizing_driver
  ∧ tokenizing_driver Job.duplicateCheck_sql
      [Js.get data "title"; Js.get data "company_handle"] tt
    = (Store.QueryRows [], tt)
  ∧ sql_quotes_closed Job.insert_sql = false
  ∧ ∃ message st2,
      Job.create tokenizing_driver data tt
      = (inl (DatabaseError message), st2).
Proof.
  cbv zeta.
  split; [exact tokenizing_driver_rejects_open_quotes|].
  split; [vm_compute; reflexivity|].
  apply (Job_create_insert_is_rejected tokenizing_driver _ tt tt).
  - exact tokenizing_driver_rejects_open_quotes.
  - vm_compute; reflexivity.
Defined.

(** ** Further properties of the builder *)

(** The clause is built from the keys alone: two payloads with the same
    keys get the same [setCols] (or the same error), whatever their
    values, which travel in [values] only. *)
Theorem sqlForPartialUpdate_setCols_ignores_values (dataToUpdate other : JsObject)
    (jsToSql : option (gmap string JsVal)) :
  Object_keys dataToUpdate = Object_keys other →
  match sqlForPartialUpdate dataToUpdate jsToSql,
        sqlForPartialUpdate other jsToSql with
  | inr built, inr built' =>
      setCols built = setCols built'
      ∧ values built = Object_values dataToUpdate
      ∧ values built' = Object_values other
  | inl e, inl e' => e = e'
  | _, _ => False
  end.
Proof.
  intros Hkeys. unfold sqlForPartialUpdate. rewrite <- Hkeys.
  destruct (Nat.eqb (length (Object_keys dataToUpdate)) 0); [reflexivity|].
  destruct (array_map _ (Object_keys dataToUpdate)) as [e|cols]; cbn; done.
Qed.

Lemma sqlForPartialUpdate_setCols_ignores_values_witness :
  Object_keys [("name", JStr "Acme"); ("numEmployees", JNum 7)]
  = Object_keys [("name", JNull); ("numEmployees", JStr "many")]
  ∧ match sqlForPartialUpdate [("name", JStr "Acme"); ("numEmployees", JNum 7)]
            (Some Company.jsToSql),
          sqlForPartialUpdate [("name", JNull); ("numEmployees", JStr "many")]
            (Some Company.jsToSql) with
    | inr built, inr built' =>
        setCols built = setCols built'
        ∧ values built = [JStr "Acme"; JNum 7]
        ∧ values built' = [JNull; JStr "many"]
    | inl e, inl e' => e = e'
    | _, _ => False
    end.
Proof.
  split; [reflexivity|].
  apply (sqlForPartialUpdate_setCols_ignores_values
           [("name", JStr "Acme"); ("numEmployees", JNum 7)]
           [("name", JNull); ("numEmployees", JStr "many")]
           (Some Company.jsToSql)).
  reflexivity.
Defined.

(** Only the alias-map properties named by the payload's keys are read:
    two alias maps that agree on them give the same result. *)
Theorem sqlForPartialUpdate_reads_only_payload_keys (dataToUpdate : JsObject)
    (jsToSql jsToSql' : gmap string JsVal) :
  (∀ key, key ∈ Object_keys dataToUpdate →
          Js.get jsToSql key = Js.get jsToSql' key) →
  sqlForPartialUpdate dataToUpdate (Some jsToSql)
  = sqlForPartialUpdate dataToUpdate (Some jsToSql').
Proof.
  intros Hagree. destruct dataToUpdate as [|kv rest]; [reflexivity|].
  rewrite !sqlForPartialUpdate_with_alias_map by done.
  do 3 f_equal. apply imap_ext. intros i [key v] Hi. cbn.
  rewrite Hagree; [reflexivity|].
  unfold Object_keys. apply list_elem_of_In, in_map_iff.
  exists (key, v). split; [reflexivity|].
  apply list_elem_of_In. by eapply list_elem_of_lookup_2.
Qed.

Lemma sqlForPartialUpdate_reads_only_payload_keys_witness :
  (∀ key, key ∈ Object_keys [("name", JStr "Acme")] →
          Js.get Company.jsToSql key = Js.get ∅ key)
  ∧ sqlForPartialUpdate [("name", JStr "Acme")] (Some Company.jsToSql)
    = sqlForPartialUpdate [("name", JStr "Acme")] (Some ∅).
Proof.
  assert (Hagree : ∀ key, key ∈ Object_keys [("name", JStr "Acme")] →
                          Js.get Company.jsToSql key = Js.get ∅ key).
  { intros key Hkey. cbn in Hkey. apply list_elem_of_singleton in Hkey.
    subst key. vm_compute. reflexivity. }
  split; [exact Hagree|].
  exact (sqlForPartialUpdate_reads_only_payload_keys
           [("name", JStr "Acme")] Company.jsToSql ∅ Hagree).
Defined.

(** The column [Company.update] writes a documented field under. *)
Lemma Company_update_column (key : string) (j : nat) :
  Company_update_fields !! j = Some key →
  Company_update_columns !! j
  = Some (to_string (or_else (Js.get Company.jsToSql key) (JStr key))).
Proof.
  destruct j as [|[|[|[|j]]]]; cbn; intros [= <-]; vm_compute; reflexivity.
Qed.

(** For a payload of documented fields, [Company.update] asks the
    builder for a clause over columns of the [companies] table only: each
    field is written under the column it stands for, [numEmployees] under
    [num_employees] and [logoUrl] under [logo_url]. *)
Theorem Company_update_writes_table_columns (data : JsObject) :
  data ≠ [] →
  Forall (λ kv : string * JsVal, kv.1 ∈ Company_update_fields) data →
  ∃ columns : list string,
    sqlForPartialUpdate data (Some Company.jsToSql)
    = ok {| setCols :=
              Js.join ", " (imap (λ i column, fragment column (S i)) columns);
            values := Object_values data |}
    ∧ length columns = length data
    ∧ Forall (λ column, column ∈ Company_update_columns) columns
    ∧ ∀ i j key v,
        data !! i = Some (key, v) →
        Company_update_fields !! j = Some key →
        columns !! i = Company_update_columns !! j.
Proof.
  intros Hne Hfields.
  pose (column := λ kv : string * JsVal,
          to_string (or_else (Js.get Company.jsToSql kv.1) (JStr kv.1))).
  exists (column <$> data).
  split; [|split; [|split]].
  - rewrite sqlForPartialUpdate_with_alias_map by done.
    by rewrite imap_fmap.
  - by rewrite length_fmap.
  - apply Forall_fmap. eapply Forall_impl; [exact Hfields|].
    intros [key v] Hkey. cbn in *.
    apply list_elem_of_lookup in Hkey as [j Hj].
    apply Company_update_column in Hj.
    apply list_elem_of_lookup. exists j. exact Hj.
  - intros i j key v Hi Hj. rewrite list_lookup_fmap, Hi. cbn.
    by rewrite (Company_update_column key j Hj).
Qed.

Lemma Company_update_writes_table_columns_witness :
  ∃ columns : list string,
    sqlForPartialUpdate [("logoUrl", JNull); ("name", JStr "Acme")]
      (Some Company.jsToSql)
    = ok {| setCols :=
              Js.join ", " (imap (λ i column, fragment column (S i)) columns);
            values := [JNull; JStr "Acme"] |}
    ∧ columns !! 0 = Some "logo_url"
    ∧ columns !! 1 = Some "name".
Proof.
  destruct (Company_update_writes_table_columns
              [("logoUrl", JNull); ("name", JStr "Acme")])
    as (columns & Hrun & _ & _ & Hcolumn).
  - discriminate.
  - repeat constructor; by_evaluation.
  - exists columns. split; [exact Hrun|]. split.
    + exact (Hcolumn 0 3 "logoUrl" JNull eq_refl eq_refl).
    + exact (Hcolumn 1 0 "name" (JStr "Acme") eq_refl eq_refl).
Defined.

(** ** Further properties of [findAll] *)

(** The statement text depends on which filters are in force, never on
    their values: two filter mappings with the same keys present (and the
    equity flag in force in both or in neither) give the same text.  The
    supplied values reach the driver as arguments only. *)
Theorem findAll_statement_ignores_values
    (filters filters' : option (gmap string JsVal)) :
  (∀ fl : ValueFilter,
     present filters (filter_key fl) = present filters' (filter_key fl)) →
  equity_in_force filters = equity_in_force filters' →
  (Company.findAll_query filters).1 = (Company.findAll_query filters').1
  ∧ (Job.findAll_query filters).1 = (Job.findAll_query filters').1.
Proof.
  intros Hpresent Hequity.
  pose proof (Hpresent minEmployees) as Hmin.
  pose proof (Hpresent maxEmployees) as Hmax.
  pose proof (Hpresent nameLike) as Hname.
  pose proof (Hpresent minSalary) as Hsalary.
  pose proof (Hpresent titleLike) as Htitle.
  unfold present in *. cbn [filter_key] in *.
  unfold Company.findAll_query, Job.findAll_query. cbn [fst].
  rewrite !Company_findAll_parts_shape, !Job_findAll_parts_shape. cbv zeta.
  rewrite Hmin, Hmax, Hname, Hsalary, Htitle, Hequity.
  split; reflexivity.
Qed.

Lemma findAll_statement_ignores_values_witness :
  let filters : option (gmap string JsVal) :=
    Some (<[ "minSalary" := JNum 150 ]> {[ "titleLike" := JStr "data" ]}) in
  let filters' : option (gmap string JsVal) :=
    Some (<[ "minSalary" := JNum 0 ]>
            {[ "titleLike" := JStr "%' OR 1=1 --" ]}) in
  (Company.findAll_query filters).1 = (Company.findAll_query filters').1
  ∧ (Job.findAll_query filters).1 = (Job.findAll_query filters').1.
Proof.
  cbv zeta.
  apply (findAll_statement_ignores_values
           (Some (<[ "minSalary" := JNum 150 ]> {[ "titleLike" := JStr "data" ]}))
           (Some (<[ "minSalary" := JNum 0 ]>
                    {[ "titleLike" := JStr "%' OR 1=1 --" ]}))).
  - intros []; vm_compute; reflexivity.
  - vm_compute; reflexivity.
Defined.

(** The statement has a [WHERE] exactly when a predicate was emitted,
    and then only one; its predicates are joined by [AND], one fewer than
    there are predicates.  So a mapping whose only key is [hasEquity: false],
    or whose keys are all unrecognized, is sent unfiltered. *)
Theorem findAll_where_and_conjunction (filters : option (gmap string JsVal)) :
  (count_occurrences " WHERE " (Company.findAll_query filters).1
   = Nat.min 1 (length (whereExpressions (Company.findAll_parts filters)))
   ∧ count_occurrences " AND " (Company.findAll_query filters).1
     = (length (whereExpressions (Company.findAll_parts filters)) - 1)%nat
   ∧ length (whereExpressions (Company.findAll_parts filters))
     = count_present filters Company_keys)
  ∧ (count_occurrences " WHERE " (Job.findAll_query filters).1
     = Nat.min 1 (length (whereExpressions (Job.findAll_parts filters)))
     ∧ count_occurrences " AND " (Job.findAll_query filters).1
       = (length (whereExpressions (Job.findAll_parts filters)) - 1)%nat
     ∧ length (whereExpressions (Job.findAll_parts filters))
       = (count_present filters ["minSalary"; "titleLike"]
          + if equity_in_force filters then 1 else 0)%nat).
Proof.
  split.
  - unfold Company.findAll_query. cbn [fst].
    rewrite Company_findAll_parts_shape. cbv zeta.
    unfold count_present, Company_keys. rewrite !filter_cons, filter_nil.
    unfold present.
    abstract_filters filters "minEmployees" "maxEmployees" "nameLike".
    presence_cases; repeat split; vm_compute; reflexivity.
  - unfold Job.findAll_query. cbn [fst].
    rewrite Job_findAll_parts_shape. cbv zeta.
    unfold count_present. rewrite !filter_cons, filter_nil.
    unfold present, equity_in_force.
    abstract_filters filters "minSalary" "hasEquity" "titleLike".
    presence_cases; repeat split; vm_compute; reflexivity.
Qed.

(** ** The statements each operation sends *)

Lemma sent_by_findAll {Db} (db : Store.Driver Db)
    (filters : option (gmap string JsVal)) (st : Db) :
  statements_sent db (Company_findAll filters) st
  = [Company.findAll_query filters]
  ∧ statements_sent db (Job_findAll filters) st = [Job.findAll_query filters].
Proof.
  split.
  - unfold statements_sent, perform, Company.findAll.
    destruct (Company.findAll_query filters) as [text args]. run_recorded.
    by destruct (db text args st) as [[rows|message] st'].
  - unfold statements_sent, perform, Job.findAll.
    destruct (Job.findAll_query filters) as [text args]. run_recorded.
    by destruct (db text args st) as [[rows|message] st'].
Qed.

Lemma sent_by_remove {Db} (db : Store.Driver Db) (key : JsVal) (st : Db) :
  statements_sent db (Company_remove key) st = [(Company.remove_sql, [key])]
  ∧ statements_sent db (Job_remove key) st = [(Job.remove_sql, [key])].
Proof.
  split.
  - unfold statements_sent, perform, Company.remove. run_recorded.
    by destruct (db Company.remove_sql [key] st) as [[[|row rows]|message] st'].
  - unfold statements_sent, perform, Job.remove. run_recorded.
    by destruct (db Job.remove_sql [key] st) as [[[|row rows]|message] st'].
Qed.

Lemma sent_by_Job_get {Db} (db : Store.Driver Db) (id : JsVal) (st : Db) :
  statements_sent db (Job_get id) st = [(Job.get_sql, [id])].
Proof.
  unfold statements_sent, perform, Job.get. run_recorded.
  by destruct (db Job.get_sql [id] st) as [[[|row rows]|message] st'].
Qed.

Lemma sent_by_Company_get {Db} (db : Store.Driver Db) (handle : JsVal)
    (st : Db) :
  statements_sent db (Company_get handle) st
  = match db Company.get_sql [handle] st with
    | (Store.QueryRows (_ :: _), _) =>
        [(Company.get_sql, [handle]); (Company.get_jobs_sql, [handle])]
    | _ => [(Company.get_sql, [handle])]
    end.
Proof.
  unfold statements_sent, perform, Company.get. run_recorded.
  destruct (db Company.get_sql [handle] st) as [[[|row rows]|message] st1];
    cbn [head fst snd]; try reflexivity.
  by destruct (db Company.get_jobs_sql [handle] st1) as [[jobs|message] st2].
Qed.

Lemma sent_by_Company_create {Db} (db : Store.Driver Db)
    (data : gmap string JsVal) (st : Db) :
  let check := (Company.duplicateCheck_sql, [Js.get data "handle"]) in
  statements_sent db (Company_create data) st
  = match db check.1 check.2 st with
    | (Store.QueryRows [], _) =>
        [check;
         (Company.insert_sql,
          [Js.get data "handle"; Js.get data "name";
           Js.get data "description"; Js.get data "numEmployees";
           Js.get data "logoUrl"])]
    | _ => [check]
    end.
Proof.
  cbv zeta. unfold statements_sent, perform, Company.create. run_recorded.
  destruct (db Company.duplicateCheck_sql _ st) as [[[|row rows]|message] st1];
    cbn [head fst snd]; try reflexivity.
  by destruct (db Company.insert_sql _ st1) as [[rows|message] st2].
Qed.

Lemma sent_by_Job_create {Db} (db : Store.Driver Db)
    (data : gmap string JsVal) (st : Db) :
  let check :=
    (Job.duplicateCheck_sql,
     [Js.get data "title"; Js.get data "company_handle"]) in
  statements_sent db (Job_create data) st
  = match db check.1 check.2 st with
    | (Store.QueryRows [], _) =>
        [check;
         (Job.insert_sql,
          [Js.get data "title"; Js.get data "salary"; Js.get data "equity";
           Js.get data "company_handle"])]
    | _ => [check]
    end.
Proof.
  cbv zeta. unfold statements_sent, perform, Job.create. run_recorded.
  destruct (db Job.duplicateCheck_sql _ st) as [[[|row rows]|message] st1];
    cbn [head fst snd]; try reflexivity.
  by destruct (db Job.insert_sql _ st1) as [[rows|message] st2].
Qed.

Lemma sent_by_Job_update {Db} (db : Store.Driver Db) (id : JsVal)
    (data : JsObject) (st : Db) :
  statements_sent db (Job_update id data) st = [].
Proof. by destruct data as [|[key v] rest]. Qed.

Lemma sent_by_Company_update {Db} (db : Store.Driver Db) (handle : JsVal)
    (data : JsObject) (st : Db) :
  statements_sent db (Company_update handle data) st
  = match data with
    | [] => []
    | _ =>
        [(Company.update_sql
            (Js.join ", "
               (imap (λ i kv,
                  fragment
                    (to_string
                       (or_else (Js.get Company.jsToSql kv.1) (JStr kv.1)))
                    (S i)) data))
            ("$" +:+ pretty (length data + 1)%nat),
          (Object_values data ++ [handle])%list)]
    end.
Proof.
  destruct data as [|kv rest]; [reflexivity|].
  unfold statements_sent, perform, Company.update.
  rewrite (sqlForPartialUpdate_with_alias_map (kv :: rest) Company.jsToSql)
    by done.
  run_recorded. unfold ok. cbn [values setCols].
  unfold Object_values. rewrite length_map.
  by destruct (db _ _ st) as [[[|row rows]|message] st'].
Qed.

(** ** The recording driver is a faithful observer *)

(** Run against the recording driver, an operation ends as it does
    against the driver itself, leaves the store in the same state, and
    adds its statements to the log. *)
Lemma recording_is_transparent {Db} (db : Store.Driver Db) (op : Operation)
    (st : Db) (log : list Call) :
  perform (recording db) op (st, log)
  = ((perform db op st).1,
     ((perform db op st).2, (log ++ statements_sent db op st)%list)).
Proof.
  unfold statements_sent.
  destruct op; unfold perform, outcome;
    unfold Company.create, Company.findAll, Company.get, Company.update,
      Company.remove, Job.create, Job.findAll, Job.get, Job.update,
      Job.remove;
    try match goal with
        | |- context [Company.findAll_query ?f] =>
            destruct (Company.findAll_query f) as [text args]
        | |- context [Job.findAll_query ?f] =>
            destruct (Job.findAll_query f) as [text args]
        | |- context [sqlForPartialUpdate ?d ?a] =>
            destruct (sqlForPartialUpdate d a) as [e|built]
        end;
    unfold Store.and_then, Store.query, Store.raise, Store.ret, Store.lift,
      recording;
    cbn [fst snd];
    repeat match goal with
           | |- context [db ?t ?a ?s] =>
               destruct (db t a s) as [[[|? ?]|?] ?]; cbn [head fst snd]
           end;
    rewrite ?app_nil_r, ?app_nil_l, <- ?app_assoc; reflexivity.
Qed.

(** ** Placeholders and quotes of the [UPDATE] statement *)

Lemma no_dollar_app (a b : string) :
  no_dollar (a +:+ b) = no_dollar a && no_dollar b.
Proof.
  induction a as [|c a IH]; [done|].
  rewrite string_app_cons. cbn. by rewrite IH, andb_assoc.
Qed.

Lemma no_quote_app (a b : string) :
  no_quote (a +:+ b) = no_quote a && no_quote b.
Proof.
  induction a as [|c a IH]; [done|].
  rewrite string_app_cons. cbn. by rewrite IH, andb_assoc.
Qed.

Lemma placeholders_none (s : string) :
  no_dollar s = true → placeholders_from None s = [].
Proof.
  intros Hs. rewrite <- (string_app_nil_r s). by rewrite placeholders_skip.
Qed.

(** The fragments of a clause, then more text: the placeholders of the
    clause, then those of the text. *)
Lemma placeholders_join_then (columns : list string) (k : nat) (c : ascii)
    (rest : string) :
  Forall (λ column, no_dollar column = true) columns →
  is_digit c = false → is_dollar c = false →
  placeholders_from None
    (Js.join ", " (imap (λ i column, fragment column (k + S i)) columns)
     +:+ String c rest)
  = (seq (S k) (length columns) ++ placeholders_from None rest)%list.
Proof.
  intros Hall Hdigit Hdollar. revert k.
  induction Hall as [|column columns Hcolumn Hall IH]; intros k.
  { change (placeholders_from None (String c rest)
            = placeholders_from None rest).
    cbn. by rewrite Hdollar. }
  rewrite imap_cons.
  rewrite (imap_ext _ (λ i column, fragment column (S k + S i)) columns)
    by (intros i x _; cbn; f_equal; lia).
  replace (k + 1)%nat with (S k) by lia.
  cbn [length seq app]. rewrite <- IH. clear IH.
  destruct columns as [|column' columns].
  - cbn [imap]. unfold Js.join. cbn [String.concat].
    rewrite placeholders_fragment by done.
    change ("" +:+ String c rest) with (String c rest).
    cbn. by rewrite Hdigit, Hdollar.
  - rewrite imap_cons, join_cons_cons, !string_app_assoc.
    rewrite placeholders_fragment by done.
    change (", " +:+ ?s) with (String "," (String " " s)).
    reflexivity.
Qed.

(** The column of a key under the alias map of [Company.update]. *)
Lemma Company_column_cases (key : string) :
  let column :=
    to_string (or_else (Js.get Company.jsToSql key) (JStr key)) in
  column = key
  ∨ column = native_function key
  ∨ column ∈ ["num_employees"; "logo_url"; native_function "Object";
              "[object Object]"].
Proof.
  cbv zeta. unfold Js.get, Company.jsToSql.
  destruct (decide (key = "numEmployees")) as [->|Hn].
  { do 2 right. by_evaluation. }
  destruct (decide (key = "logoUrl")) as [->|Hl].
  { do 2 right. by_evaluation. }
  rewrite !lookup_insert_ne, lookup_empty by done.
  unfold Object_prototype_get. repeat case_decide.
  - do 2 right. by_evaluation.
  - do 2 right. by_evaluation.
  - right. by left.
  - by left.
Qed.

Lemma Company_column_no_dollar (key : string) :
  no_dollar key = true →
  no_dollar (to_string (or_else (Js.get Company.jsToSql key) (JStr key)))
  = true.
Proof.
  intros Hkey.
  destruct (Company_column_cases key) as [->|[->|Hin]]; [done|..].
  - unfold native_function. by rewrite !no_dollar_app, Hkey.
  - rewrite !elem_of_cons, elem_of_nil in Hin.
    destruct Hin as [->|[->|[->|[->|[]]]]]; reflexivity.
Qed.

Lemma Company_column_no_quote (key : string) :
  no_quote key = true →
  no_quote (to_string (or_else (Js.get Company.jsToSql key) (JStr key)))
  = true.
Proof.
  intros Hkey.
  destruct (Company_column_cases key) as [->|[->|Hin]]; [done|..].
  - unfold native_function. by rewrite !no_quote_app, Hkey.
  - rewrite !elem_of_cons, elem_of_nil in Hin.
    destruct Hin as [->|[->|[->|[->|[]]]]]; reflexivity.
Qed.

(** The text of the [UPDATE] around its two interpolations. *)
Lemma Company_update_sql_layout (setCols idx : string) :
  Company.update_sql setCols idx
  = ("UPDATE companies " +:+ nl +:+ sp 22 +:+ "SET ")
    +:+ setCols
    +:+ String " " ((nl +:+ sp 22 +:+ "WHERE handle = ")
    +:+ idx
    +:+ String " "
          (nl +:+ sp 22 +:+ "RETURNING handle, "
           +:+ nl +:+ sp 32 +:+ "name, "
           +:+ nl +:+ sp 32 +:+ "description, "
           +:+ nl +:+ sp 32 +:+ "num_employees AS " +:+ dq +:+ "numEmployees"
           +:+ dq +:+ ", "
           +:+ nl +:+ sp 32 +:+ "logo_url AS " +:+ dq +:+ "logoUrl" +:+ dq)).
Proof.
  unfold Company.update_sql, lines, Js.join. cbn [String.concat].
  rewrite !string_app_assoc. reflexivity.
Qed.

Lemma Company_update_sql_placeholders (columns : list string) :
  Forall (λ column, no_dollar column = true) columns →
  placeholders
    (Company.update_sql
       (Js.join ", " (imap (λ i column, fragment column (S i)) columns))
       ("$" +:+ pretty (length columns + 1)%nat))
  = seq 1 (length columns + 1).
Proof.
  intros Hall. rewrite Company_update_sql_layout. unfold placeholders.
  rewrite placeholders_skip by (vm_compute; reflexivity).
  pose proof (placeholders_join_then columns 0 " ") as Hclause.
  cbn [Nat.add] in Hclause. rewrite Hclause by done. clear Hclause.
  rewrite placeholders_skip by (vm_compute; reflexivity).
  rewrite string_app_assoc.
  change (placeholders_from None ("$" +:+ ?s))
    with (placeholders_from (Some 0) s).
  rewrite read_pretty.
  change (placeholders_from (Some ?m) (String " " ?s))
    with (m :: placeholders_from None s).
  rewrite placeholders_none by (vm_compute; reflexivity).
  rewrite seq_app. cbn [seq]. do 2 f_equal. lia.
Qed.

Lemma lex_app (st : LexState) (a b : string) :
  lex_from st (a +:+ b) = lex_from (lex_from st a) b.
Proof.
  revert st. induction a as [|c a IH]; intros st; [done|].
  rewrite string_app_cons. cbn. apply IH.
Qed.

Lemma lex_identifier (s : string) :
  no_quote s = true → lex_from InIdentifier s = InIdentifier.
Proof.
  induction s as [|c s IH]; [done|]. cbn.
  intros [Hc Hs]%andb_prop. apply negb_true_iff in Hc. rewrite Hc. auto.
Qed.

Lemma lex_digits (x : N) (s : string) :
  lex_from Plain (pretty_N_go x s) = lex_from Plain s.
Proof.
  revert s. induction (N.lt_wf_0 x) as [x _ IH]; intros s.
  assert (x = 0 ∨ 0 < x)%N as [->|Hpos] by lia.
  { by rewrite pretty_N_go_0. }
  rewrite pretty_N_go_step by done.
  rewrite IH by (by apply N.div_lt).
  assert (x `mod` 10 < 10)%N as Hk by (by apply N.mod_lt).
  assert (∀ k, (k < 10)%N → lex_step Plain (pretty_N_char k) = Plain)
    as Hchar.
  { intros k Hlt.
    assert (k = 0 ∨ k = 1 ∨ k = 2 ∨ k = 3 ∨ k = 4 ∨ k = 5 ∨ k = 6 ∨ k = 7
            ∨ k = 8 ∨ k = 9)%N as Hcases by lia.
    repeat destruct Hcases as [->|Hcases]; try subst k; reflexivity. }
  cbn [lex_from]. by rewrite Hchar.
Qed.

Lemma lex_pretty (n : nat) : lex_from Plain (pretty n) = Plain.
Proof.
  unfold pretty, pretty_nat, pretty, pretty_N.
  case_decide; [reflexivity|]. by rewrite lex_digits.
Qed.

Lemma lex_fragment (column : string) (N : nat) :
  no_quote column = true → lex_from Plain (fragment column N) = Plain.
Proof.
  intros Hcolumn. unfold fragment. rewrite !lex_app.
  change (lex_from Plain dq) with InIdentifier.
  rewrite lex_identifier by done.
  change (lex_from InIdentifier dq) with Plain.
  change (lex_from Plain "=$") with Plain.
  apply lex_pretty.
Qed.

Lemma lex_join (columns : list string) (number : nat → nat) :
  Forall (λ column, no_quote column = true) columns →
  lex_from Plain
    (Js.join ", " (imap (λ i column, fragment column (number i)) columns))
  = Plain.
Proof.
  intros Hall. revert number.
  induction Hall as [|column columns Hcolumn Hall IH]; intros number; [done|].
  rewrite imap_cons. specialize (IH (number ∘ S)).
  destruct columns as [|column' columns].
  - by apply lex_fragment.
  - rewrite imap_cons in *. rewrite join_cons_cons, !lex_app.
    rewrite lex_fragment by done.
    change (lex_from Plain ", ") with Plain. exact IH.
Qed.

Lemma Company_update_sql_quotes (columns : list string) (n : nat) :
  Forall (λ column, no_quote column = true) columns →
  sql_quotes_closed
    (Company.update_sql
       (Js.join ", " (imap (λ i column, fragment column (S i)) columns))
       ("$" +:+ pretty n))
  = true.
Proof.
  intros Hall. rewrite Company_update_sql_layout. unfold sql_quotes_closed.
  rewrite !lex_app.
  change (lex_from Plain ("UPDATE companies " +:+ nl +:+ sp 22 +:+ "SET "))
    with Plain.
  rewrite lex_join by done.
  change (String " " ?s) with (" " +:+ s). rewrite !lex_app.
  change (lex_from Plain " ") with Plain.
  change (lex_from Plain (nl +:+ sp 22 +:+ "WHERE handle = ")) with Plain.
  change (lex_from Plain "$") with Plain.
  rewrite lex_pretty.
  vm_compute. reflexivity.
Qed.

(** The clause [Company.update] interpolates, over its columns. *)
Lemma Company_update_clause (data : JsObject) :
  imap (λ i (kv : string * JsVal),
          fragment
            (to_string (or_else (Js.get Company.jsToSql kv.1) (JStr kv.1)))
            (S i)) data
  = imap (λ i column, fragment column (S i))
      ((λ kv : string * JsVal,
          to_string (or_else (Js.get Company.jsToSql kv.1) (JStr kv.1)))
       <$> data).
Proof. by rewrite imap_fmap. Qed.

(** Every statement any operation sends has exactly the placeholders
    [$1 .. $n] for the [n] arguments sent with it, in every run and against
    every driver: no placeholder is left without an argument and no
    argument without a placeholder.  For [update] this needs payload keys
    without a [$] of their own, since keys are interpolated. *)
Theorem every_statement_binds_its_placeholders {Db} (db : Store.Driver Db)
    (op : Operation) (st : Db) :
  keys_without_dollar op →
  Forall (λ call : Call, placeholders call.1 = seq 1 (length call.2))
         (statements_sent db op st).
Proof.
  intros Hkeys. destruct op; cbn [keys_without_dollar] in Hkeys.
  - rewrite sent_by_Company_create. cbv zeta. cbn [fst snd].
    destruct (db _ _ st) as [[[|row rows]|message] st1];
      repeat constructor; cbn [fst snd length]; vm_compute; reflexivity.
  - rewrite (proj1 (sent_by_findAll db filters st)).
    constructor; [|constructor].
    unfold Company.findAll_query. cbn [fst snd].
    rewrite Company_findAll_parts_shape. cbv zeta.
    abstract_filters filters "minEmployees" "maxEmployees" "nameLike".
    presence_cases; vm_compute; reflexivity.
  - rewrite sent_by_Company_get.
    destruct (db _ _ st) as [[[|row rows]|message] st1];
      repeat constructor; cbn [fst snd length]; vm_compute; reflexivity.
  - rewrite sent_by_Company_update. destruct data as [|kv rest]; constructor;
      [|constructor].
    cbn [fst snd]. rewrite Company_update_clause.
    set (columns := _ <$> (kv :: rest)).
    replace (length (kv :: rest)) with (length columns)
      by (unfold columns; by rewrite length_fmap).
    rewrite Company_update_sql_placeholders.
    + rewrite length_app. unfold Object_values, columns.
      by rewrite length_map, length_fmap.
    + unfold columns. apply Forall_fmap.
      eapply Forall_impl; [exact Hkeys|].
      intros [key v] Hkey. by apply Company_column_no_dollar.
  - rewrite (proj1 (sent_by_remove db handle st)).
    repeat constructor; vm_compute; reflexivity.
  - rewrite sent_by_Job_create. cbv zeta. cbn [fst snd].
    destruct (db _ _ st) as [[[|row rows]|message] st1];
      repeat constructor; cbn [fst snd length]; vm_compute; reflexivity.
  - rewrite (proj2 (sent_by_findAll db filters st)).
    constructor; [|constructor].
    unfold Job.findAll_query. cbn [fst snd].
    rewrite Job_findAll_parts_shape. cbv zeta. unfold equity_in_force.
    abstract_filters filters "minSalary" "hasEquity" "titleLike".
    presence_cases; vm_compute; reflexivity.
  - rewrite sent_by_Job_get. repeat constructor; vm_compute; reflexivity.
  - rewrite sent_by_Job_update. constructor.
  - rewrite (proj2 (sent_by_remove db id st)).
    repeat constructor; vm_compute; reflexivity.
Qed.

Lemma every_statement_binds_its_placeholders_witness :
  let op :=
    Company_update (JStr "c1")
      [("name", JStr "New"); ("numEmployees", JNum 7)] in
  keys_without_dollar op
  ∧ Forall (λ call : Call, placeholders call.1 = seq 1 (length call.2))
      (statements_sent (answering []) op tt)
  ∧ length (statements_sent (answering []) op tt) = 1.
Proof.
  cbv zeta.
  assert (Hkeys : keys_without_dollar
            (Company_update (JStr "c1")
               [("name", JStr "New"); ("numEmployees", JNum 7)])).
  { repeat constructor. }
  split; [exact Hkeys|]. split; [|reflexivity].
  exact (every_statement_binds_its_placeholders (answering []) _ tt Hkeys).
Defined.

(** Every statement any operation sends closes each quote it opens,
    with one exception: the [INSERT] of [Job.create].  For [update] this
    needs payload keys without a double quote of their own, since keys are
    interpolated between quotes and not escaped. *)
Theorem every_statement_closes_its_quotes {Db} (db : Store.Driver Db)
    (op : Operation) (st : Db) :
  keys_without_quote op →
  Forall (λ call : Call,
            sql_quotes_closed call.1 = true
            ∨ (call.1 = Job.insert_sql ∧ ∃ data, op = Job_create data))
         (statements_sent db op st).
Proof.
  intros Hkeys. destruct op; cbn [keys_without_quote] in Hkeys.
  - rewrite sent_by_Company_create. cbv zeta. cbn [fst snd].
    destruct (db _ _ st) as [[[|row rows]|message] st1];
      repeat constructor; left; vm_compute; reflexivity.
  - rewrite (proj1 (sent_by_findAll db filters st)).
    constructor; [|constructor]. left.
    unfold Company.findAll_query. cbn [fst snd].
    rewrite Company_findAll_parts_shape. cbv zeta.
    abstract_filters filters "minEmployees" "maxEmployees" "nameLike".
    presence_cases; vm_compute; reflexivity.
  - rewrite sent_by_Company_get.
    destruct (db _ _ st) as [[[|row rows]|message] st1];
      repeat constructor; left; vm_compute; reflexivity.
  - rewrite sent_by_Company_update. destruct data as [|kv rest]; constructor;
      [|constructor].
    left. cbn [fst snd]. rewrite Company_update_clause.
    apply Company_update_sql_quotes. apply Forall_fmap.
    eapply Forall_impl; [exact Hkeys|].
    intros [key v] Hkey. by apply Company_column_no_quote.
  - rewrite (proj1 (sent_by_remove db handle st)).
    repeat constructor; left; vm_compute; reflexivity.
  - rewrite sent_by_Job_create. cbv zeta. cbn [fst snd].
    destruct (db _ _ st) as [[[|row rows]|message] st1].
    + constructor; [left; vm_compute; reflexivity|].
      constructor; [|constructor]. right. split; [reflexivity|by exists data].
    + repeat constructor; left; vm_compute; reflexivity.
    + repeat constructor; left; vm_compute; reflexivity.
  - rewrite (proj2 (sent_by_findAll db filters st)).
    constructor; [|constructor]. left.
    unfold Job.findAll_query. cbn [fst snd].
    rewrite Job_findAll_parts_shape. cbv zeta. unfold equity_in_force.
    abstract_filters filters "minSalary" "hasEquity" "titleLike".
    presence_cases; vm_compute; reflexivity.
  - rewrite sent_by_Job_get. repeat constructor; left; vm_compute; reflexivity.
  - rewrite sent_by_Job_update. constructor.
  - rewrite (proj2 (sent_by_remove db id st)).
    repeat constructor; left; vm_compute; reflexivity.
Qed.

Lemma every_statement_closes_its_quotes_witness :
  let op :=
    Company_update (JStr "c1")
      [("name", JStr "New"); ("numEmployees", JNum 7)] in
  keys_without_quote op
  ∧ Forall (λ call : Call,
              sql_quotes_closed call.1 = true
              ∨ (call.1 = Job.insert_sql ∧ ∃ data, op = Job_create data))
      (statements_sent (answering []) op tt).
Proof.
  cbv zeta.
  assert (Hkeys : keys_without_quote
            (Company_update (JStr "c1")
               [("name", JStr "New"); ("numEmployees", JNum 7)])).
  { repeat constructor. }
  split; [exact Hkeys|].
  exact (every_statement_closes_its_quotes (answering []) _ tt Hkeys).
Defined.

(** ** [get] and [remove] *)

Lemma Job_get_run {Db} (db : Store.Driver Db) (id : JsVal) (st : Db) :
  Job.get db id st
  = match db Job.get_sql [id] st with
    | (Store.QueryRows (job :: _), st') => (inr job, st')
    | (Store.QueryRows [], st') =>
        (inl (NotFoundError ("No job: " +:+ to_string id)), st')
    | (Store.QueryFail message, st') => (inl (DatabaseError message), st')
    end.
Proof.
  unfold Job.get, Store.and_then, Store.query, Store.raise, Store.ret.
  by destruct (db Job.get_sql [id] st) as [[[|job rows]|message] st'].
Qed.

Lemma Company_get_run {Db} (db : Store.Driver Db) (handle : JsVal) (st : Db) :
  Company.get db handle st
  = match db Company.get_sql [handle] st with
    | (Store.QueryRows (company :: _), st1) =>
        match db Company.get_jobs_sql [handle] st1 with
        | (Store.QueryRows jobs, st2) =>
            (inr {| Company.company := company; Company.jobs := jobs |}, st2)
        | (Store.QueryFail message, st2) =>
            (inl (DatabaseError message), st2)
        end
    | (Store.QueryRows [], st1) =>
        (inl (NotFoundError ("No company: " +:+ to_string handle)), st1)
    | (Store.QueryFail message, st1) => (inl (DatabaseError message), st1)
    end.
Proof.
  unfold Company.get, Store.and_then, Store.query, Store.raise, Store.ret.
  destruct (db Company.get_sql [handle] st) as [[[|company rows]|message] st1];
    cbn [head]; try reflexivity.
  by destruct (db Company.get_jobs_sql [handle] st1) as [[jobs|message] st2].
Qed.

Lemma remove_run {Db} (db : Store.Driver Db) (key : JsVal) (st : Db) :
  Job.remove db key st
  = match db Job.remove_sql [key] st with
    | (Store.QueryRows (_ :: _), st') => (inr tt, st')
    | (Store.QueryRows [], st') =>
        (inl (NotFoundError ("No job: " +:+ to_string key)), st')
    | (Store.QueryFail message, st') => (inl (DatabaseError message), st')
    end
  ∧ Company.remove db key st
    = match db Company.remove_sql [key] st with
      | (Store.QueryRows (_ :: _), st') => (inr tt, st')
      | (Store.QueryRows [], st') =>
          (inl (NotFoundError ("No company: " +:+ to_string key)), st')
      | (Store.QueryFail message, st') => (inl (DatabaseError message), st')
      end.
Proof.
  unfold Job.remove, Company.remove, Store.and_then, Store.query,
    Store.raise, Store.ret.
  split.
  - by destruct (db Job.remove_sql [key] st) as [[[|row rows]|message] st'].
  - by destruct (db Company.remove_sql [key] st)
      as [[[|row rows]|message] st'].
Qed.

(** [get] fails with a not-found error, whose message names the key,
    exactly when the select by key answers with no row, and returns the
    first row otherwise.  [Company.get] then asks for the company's jobs
    with the same handle: it returns exactly when both statements succeed,
    with the rows of the second as [jobs] in the driver's order, so a
    company is never returned without its jobs; the second statement is
    sent only for a company that was found. *)
Theorem get_found_iff_a_row {Db} (db : Store.Driver Db) (key : JsVal)
    (st : Db) :
  (∀ st', Job.get db key st
           = (inl (NotFoundError ("No job: " +:+ to_string key)), st')
          ↔ db Job.get_sql [key] st = (Store.QueryRows [], st'))
  ∧ (∀ job st', Job.get db key st = (inr job, st')
                ↔ ∃ rows, db Job.get_sql [key] st
                          = (Store.QueryRows (job :: rows), st'))
  ∧ (∀ st', Company.get db key st
             = (inl (NotFoundError ("No company: " +:+ to_string key)), st')
            ↔ db Company.get_sql [key] st = (Store.QueryRows [], st'))
  ∧ (∀ found st2,
       Company.get db key st = (inr found, st2)
       ↔ ∃ rows st1,
           db Company.get_sql [key] st
           = (Store.QueryRows (Company.company found :: rows), st1)
           ∧ db Company.get_jobs_sql [key] st1
             = (Store.QueryRows (Company.jobs found), st2))
  ∧ (length (statements_sent db (Company_get key) st) = 2
     ↔ ∃ row rows st1,
         db Company.get_sql [key] st = (Store.QueryRows (row :: rows), st1)).
Proof.
  rewrite sent_by_Company_get.
  split; [|split; [|split; [|split]]].
  - intros st'. rewrite Job_get_run.
    destruct (db Job.get_sql [key] st) as [[[|job rows]|message] st1];
      split; intros [=]; by subst.
  - intros job st'. rewrite Job_get_run.
    destruct (db Job.get_sql [key] st) as [[[|row rows]|message] st1]; split;
      try (intros [=]; subst; eauto); try (intros (? & [=])); by subst.
  - intros st'. rewrite Company_get_run.
    destruct (db Company.get_sql [key] st) as [[[|row rows]|message] st1];
      [| destruct (db Company.get_jobs_sql [key] st1)
           as [[jobs|message] st2] |];
      split; intros [=]; by subst.
  - intros [company jobs] st2. rewrite Company_get_run.
    cbn [Company.company Company.jobs].
    destruct (db Company.get_sql [key] st) as [[[|row rows]|message] st1].
    + split; [intros [=]|intros (? & ? & [=] & _)].
    + destruct (db Company.get_jobs_sql [key] st1)
        as [[found|message] st2'] eqn:Hjobs.
      * split.
        -- intros [= -> -> ->]. by exists rows, st1.
        -- intros (rows' & st1' & [= -> -> ->] & Hjobs').
           rewrite Hjobs in Hjobs'. by injection Hjobs' as -> ->.
      * split; [intros [=]|].
        intros (rows' & st1' & [= -> -> ->] & Hjobs').
        rewrite Hjobs in Hjobs'. discriminate.
    + split; [intros [=]|intros (? & ? & [=] & _)].
  - destruct (db Company.get_sql [key] st) as [[[|row rows]|message] st1];
      cbn; split; try discriminate; try (intros (? & ? & ? & [=])); eauto.
Qed.

(** [remove] succeeds exactly when the [DELETE] returns a row, and fails
    with a not-found error naming the key exactly when it returns none. *)
Theorem remove_succeeds_iff_a_row_was_deleted {Db} (db : Store.Driver Db)
    (key : JsVal) (st : Db) :
  (∀ st', Job.remove db key st = (inr tt, st')
          ↔ ∃ row rows, db Job.remove_sql [key] st
                        = (Store.QueryRows (row :: rows), st'))
  ∧ (∀ st', Job.remove db key st
             = (inl (NotFoundError ("No job: " +:+ to_string key)), st')
            ↔ db Job.remove_sql [key] st = (Store.QueryRows [], st'))
  ∧ (∀ st', Company.remove db key st = (inr tt, st')
            ↔ ∃ row rows, db Company.remove_sql [key] st
                          = (Store.QueryRows (row :: rows), st'))
  ∧ (∀ st', Company.remove db key st
             = (inl (NotFoundError ("No company: " +:+ to_string key)), st')
            ↔ db Company.remove_sql [key] st = (Store.QueryRows [], st')).
Proof.
  destruct (remove_run db key st) as [Hjob Hcompany].
  rewrite Hjob, Hcompany. clear Hjob Hcompany.
  split; [|split; [|split]]; intros st'.
  - destruct (db Job.remove_sql [key] st) as [[[|row rows]|message] st1];
      split; try (intros [=]; subst; eauto);
      try (intros (? & ? & [=])); by subst.
  - destruct (db Job.remove_sql [key] st) as [[[|row rows]|message] st1];
      split; intros [=]; by subst.
  - destruct (db Company.remove_sql [key] st) as [[[|row rows]|message] st1];
      split; try (intros [=]; subst; eauto);
      try (intros (? & ? & [=])); by subst.
  - destruct (db Company.remove_sql [key] st) as [[[|row rows]|message] st1];
      split; intros [=]; by subst.
Qed.

(** ** [create] and [update], by outcome *)

(** [create] always sends its duplicate check first.  It sends the
    [INSERT] exactly when the check answers with no row, and it fails with
    a [BadRequestError] exactly when the check answers with a row: a
    duplicate is refused without any [INSERT] being sent. *)
Theorem create_inserts_only_after_a_clean_check {Db} (db : Store.Driver Db)
    (data : gmap string JsVal) (st : Db) :
  let company_check := [Js.get data "handle"] in
  let job_check := [Js.get data "title"; Js.get data "company_handle"] in
  (head (statements_sent db (Company_create data) st)
   = Some (Company.duplicateCheck_sql, company_check)
   ∧ (Company.insert_sql ∈ (statements_sent db (Company_create data) st).*1
      ↔ ∃ st1, db Company.duplicateCheck_sql company_check st
               = (Store.QueryRows [], st1))
   ∧ ((∃ message st', Company.create db data st
                      = (inl (BadRequestError message), st'))
      ↔ ∃ row rows st1, db Company.duplicateCheck_sql company_check st
                        = (Store.QueryRows (row :: rows), st1)))
  ∧ (head (statements_sent db (Job_create data) st)
     = Some (Job.duplicateCheck_sql, job_check)
     ∧ (Job.insert_sql ∈ (statements_sent db (Job_create data) st).*1
        ↔ ∃ st1, db Job.duplicateCheck_sql job_check st
                 = (Store.QueryRows [], st1))
     ∧ ((∃ message st', Job.create db data st
                        = (inl (BadRequestError message), st'))
        ↔ ∃ row rows st1, db Job.duplicateCheck_sql job_check st
                          = (Store.QueryRows (row :: rows), st1))).
Proof.
  cbv zeta.
  assert (Hcompany : Company.insert_sql ≠ Company.duplicateCheck_sql)
    by (vm_compute; discriminate).
  assert (Hjob : Job.insert_sql ≠ Job.duplicateCheck_sql)
    by (vm_compute; discriminate).
  split.
  - rewrite sent_by_Company_create. cbv zeta. cbn [fst snd].
    destruct (Company_create_checks_then_inserts db data st) as [Hrun _].
    cbv zeta in Hrun. rewrite Hrun. clear Hrun.
    destruct (db Company.duplicateCheck_sql _ st)
      as [[[|row rows]|message] st1].
    + split; [reflexivity|]. split.
      * split; [by eauto|]. intros _.
        rewrite fmap_cons. cbn [fst]. apply list_elem_of_further.
        apply list_elem_of_here.
      * split; [|intros (? & ? & ? & [=])].
        destruct (db Company.insert_sql _ st1) as [[found|message] st2];
          intros (? & ? & [=]).
    + split; [reflexivity|]. split.
      * split; [|intros (? & [=])].
        intros Hin. apply list_elem_of_singleton in Hin. by destruct Hcompany.
      * split; by eauto.
    + split; [reflexivity|]. split.
      * split; [|intros (? & [=])].
        intros Hin. apply list_elem_of_singleton in Hin. by destruct Hcompany.
      * split; [intros (? & ? & [=])|intros (? & ? & ? & [=])].
  - rewrite sent_by_Job_create. cbv zeta. cbn [fst snd].
    pose proof (Job_create_checks_then_inserts db data st) as Hrun.
    cbv zeta in Hrun. rewrite Hrun. clear Hrun.
    destruct (db Job.duplicateCheck_sql _ st) as [[[|row rows]|message] st1].
    + split; [reflexivity|]. split.
      * split; [by eauto|]. intros _.
        rewrite fmap_cons. cbn [fst]. apply list_elem_of_further.
        apply list_elem_of_here.
      * split; [|intros (? & ? & ? & [=])].
        destruct (db Job.insert_sql _ st1) as [[found|message] st2];
          intros (? & ? & [=]).
    + split; [reflexivity|]. split.
      * split; [|intros (? & [=])].
        intros Hin. apply list_elem_of_singleton in Hin. by destruct Hjob.
      * split; by eauto.
    + split; [reflexivity|]. split.
      * split; [|intros (? & [=])].
        intros Hin. apply list_elem_of_singleton in Hin. by destruct Hjob.
      * split; [intros (? & ? & [=])|intros (? & ? & ? & [=])].
Qed.

(** A run of [Company.update] on a payload that is not empty. *)
Lemma Company_update_run {Db} (db : Store.Driver Db) (handle : JsVal)
    (data : JsObject) (st : Db) :
  data ≠ [] →
  Company.update db handle data st
  = match db (Company.update_sql
                (Js.join ", "
                   (imap (λ i (kv : string * JsVal),
                      fragment
                        (to_string
                           (or_else (Js.get Company.jsToSql kv.1) (JStr kv.1)))
                        (S i)) data))
                ("$" +:+ pretty (length data + 1)%nat))
             (Object_values data ++ [handle])%list st with
    | (Store.QueryRows (company :: _), st') => (inr company, st')
    | (Store.QueryRows [], st') =>
        (inl (NotFoundError ("No company: " +:+ to_string handle)), st')
    | (Store.QueryFail message, st') => (inl (DatabaseError message), st')
    end.
Proof.
  intros Hne. unfold Company.update.
  rewrite (sqlForPartialUpdate_with_alias_map data Company.jsToSql Hne).
  unfold Store.and_then, Store.lift, Store.query, Store.raise, Store.ret, ok.
  cbn [values setCols]. unfold Object_values. rewrite length_map.
  by destruct (db _ _ st) as [[[|company rows]|message] st'].
Qed.

(** [Company.update] refuses exactly the empty payload with a
    [BadRequestError], and then sends nothing; it never throws a
    [TypeError].  For any other payload it sends one statement, carrying the
    payload's values followed by the handle, and it fails with a not-found
    error exactly when that statement answers with no row. *)
Theorem Company_update_by_outcome {Db} (db : Store.Driver Db)
    (handle : JsVal) (data : JsObject) (st : Db) :
  ((∃ message st', Company.update db handle data st
                   = (inl (BadRequestError message), st'))
   ↔ data = [])
  ∧ (statements_sent db (Company_update handle data) st = [] ↔ data = [])
  ∧ (∀ key st', Company.update db handle data st ≠ (inl (TypeError key), st'))
  ∧ (∀ call : Call,
       call ∈ statements_sent db (Company_update handle data) st ↔
       statements_sent db (Company_update handle data) st = [call]
       ∧ call.2 = (Object_values data ++ [handle])%list)
  ∧ (∀ st',
       Company.update db handle data st
       = (inl (NotFoundError ("No company: " +:+ to_string handle)), st')
       ↔ ∃ call, statements_sent db (Company_update handle data) st = [call]
                 ∧ db call.1 call.2 st = (Store.QueryRows [], st')).
Proof.
  rewrite sent_by_Company_update.
  destruct data as [|kv rest].
  { split; [split; [done|intros _; by eauto]|].
    split; [done|]. split; [intros key st'; discriminate|].
    split.
    - intros call. split; [by intros ?%elem_of_nil|by intros [[=] _]].
    - intros st'. split; [discriminate|by intros (? & [=] & _)]. }
  rewrite (Company_update_run db handle (kv :: rest) st) by done.
  set (text := Company.update_sql _ _).
  set (args := (Object_values (kv :: rest) ++ [handle])%list).
  split; [|split; [|split; [|split]]].
  - split; [|done].
    destruct (db text args st) as [[[|row rows]|message] st1];
      intros (? & ? & [=]).
  - split; discriminate.
  - intros key st'.
    destruct (db text args st) as [[[|row rows]|message] st1]; discriminate.
  - intros call. rewrite list_elem_of_singleton. split.
    + by intros ->.
    + by intros [[= ->] _].
  - intros st'. split.
    + intros Hnot. exists (text, args). split; [reflexivity|]. cbn [fst snd].
      destruct (db text args st) as [[[|row rows]|message] st1];
        try discriminate. by injection Hnot as ->.
    + intros (call & [= <-] & Hanswer). cbn [fst snd] in Hanswer.
      by rewrite Hanswer.
Qed.

(** ** Keys that [findAll] does not act on *)

Lemma filter_keys_not_inherited :
  Forall (λ key, Object_prototype_get key = JUndefined)
         (Company_keys ++ Job_keys)%list.
Proof. repeat constructor. Qed.

(** A key that is not among the recognized ones changes nothing in
    either assembly, whatever its value; and a recognized key whose value is
    [undefined] is treated as if the key were not there. *)
Theorem findAll_ignores_other_keys (filters : gmap string JsVal)
    (key : string) (v : JsVal) :
  key ∉ (Company_keys ++ Job_keys)%list →
  (Company.findAll_query (Some (<[ key := v ]> filters))
   = Company.findAll_query (Some filters)
   ∧ Job.findAll_query (Some (<[ key := v ]> filters))
     = Job.findAll_query (Some filters))
  ∧ ∀ recognized,
      recognized ∈ (Company_keys ++ Job_keys)%list →
      Company.findAll_query (Some (<[ recognized := JUndefined ]> filters))
      = Company.findAll_query (Some (delete recognized filters))
      ∧ Job.findAll_query (Some (<[ recognized := JUndefined ]> filters))
        = Job.findAll_query (Some (delete recognized filters)).
Proof.
  intros Hother.
  assert (Hne : ∀ k, k ∈ (Company_keys ++ Job_keys)%list → key ≠ k).
  { intros k Hk ->. by apply Hother. }
  split.
  - unfold Company.findAll_query, Job.findAll_query, Company.findAll_parts,
      Job.findAll_parts, filters_or_default.
    rewrite !get_insert_ne by (apply Hne; by_evaluation).
    split; reflexivity.
  - intros recognized Hin.
    assert (Hsame : ∀ k, k ∈ (Company_keys ++ Job_keys)%list →
      Js.get (<[ recognized := JUndefined ]> filters) k
      = Js.get (delete recognized filters) k).
    { intros k Hk. destruct (decide (recognized = k)) as [->|Hdiff].
      - rewrite get_insert_eq, get_delete_eq.
        pose proof filter_keys_not_inherited as Hplain.
        rewrite Forall_forall in Hplain. symmetry. by apply Hplain.
      - by rewrite get_insert_ne, get_delete_ne. }
    unfold Company.findAll_query, Job.findAll_query, Company.findAll_parts,
      Job.findAll_parts, filters_or_default.
    rewrite !Hsame by by_evaluation.
    split; reflexivity.
Qed.

Lemma findAll_ignores_other_keys_witness :
  let filters : gmap string JsVal := {[ "minSalary" := JNum 150 ]} in
  ("limit" ∉ (Company_keys ++ Job_keys)%list)
  ∧ Job.findAll_query (Some (<[ "limit" := JNum 10 ]> filters))
    = Job.findAll_query (Some filters)
  ∧ Job.findAll_query (Some (<[ "titleLike" := JUndefined ]> filters))
    = Job.findAll_query (Some (delete "titleLike" filters)).
Proof.
  cbv zeta.
  assert (Hother : "limit" ∉ (Company_keys ++ Job_keys)%list).
  { intros Hin. revert Hin. apply (bool_decide_unpack _).
    vm_compute. exact I. }
  split; [exact Hother|].
  destruct (findAll_ignores_other_keys {[ "minSalary" := JNum 150 ]}
              "limit" (JNum 10) Hother) as [[_ Hjob] Hundefined].
  split; [exact Hjob|].
  apply (Hundefined "titleLike"). by_evaluation.
Defined.
